(** * make-tls-ct-logids.py: the Certificate Transparency log-ID table generator

    A shallow embedding of [tools/make-tls-ct-logids.py] and the properties
    of its transformer ([process_json]) and patcher ([parse_source], [main]).

    - Python [str] is [string]; [bytes] is [list byte].
    - An exception is a value of [exn]; a call that may raise returns a
      [result].
    - The parsed JSON document is a value of [json].
    - The source file and what a run does to it and prints are the two
      fields of [world]; a run is a function from the world to the world.
      The file is held as the text that reading it in text mode hands to
      the script: every line end is a newline.  Opening, writing and
      printing can fail: [main_io] takes what fails as an argument, and
      [main] is the run in which none of them does. *)

From Stdlib Require Import List String Ascii Bool Arith NArith Lia.
From Stdlib.Strings Require Import Byte.
From Stdlib Require Import DecimalString.
Import ListNotations.

Local Open Scope list_scope.
Local Open Scope string_scope.

(** ** Exceptions *)

Inductive exn : Type :=
| KeyError (key : string)
| TypeError
| AttributeError
| ValueError
| BinasciiError
| FileNotFoundError
| ConnectionError
| RuntimeError (msg : string)
| PermissionError
| UnicodeEncodeError
| OSError.

Inductive result (A : Type) : Type :=
| Ok (a : A)
| Raise (e : exn).

Arguments Ok {A} a.
Arguments Raise {A} e.

Definition bind {A B : Type} (m : result A) (k : A -> result B) : result B :=
  match m with
  | Ok a => k a
  | Raise e => Raise e
  end.

Notation "x <- m ;; k" := (bind m (fun x => k))
  (at level 61, m at next level, right associativity).

(** [mapM f l] runs [f] on the elements of [l] from left to right and stops
    at the first exception. *)
Fixpoint mapM {A B : Type} (f : A -> result B) (l : list A) : result (list B) :=
  match l with
  | [] => Ok []
  | a :: l' => b <- f a ;; bs <- mapM f l' ;; Ok (b :: bs)
  end.

(** A [for] loop whose body may raise: the accumulator is threaded through
    the elements in order. *)
Fixpoint for_each {A S : Type} (body : S -> A -> result S) (l : list A) (s : S)
  : result S :=
  match l with
  | [] => Ok s
  | a :: l' => s' <- body s a ;; for_each body l' s'
  end.

(** ** The Python built-ins the script calls *)

Module Py.

Definition nl : ascii := "010"%char.
Definition cr : ascii := "013"%char.
Definition dquote : ascii := "034"%char.
Definition backslash : ascii := "092"%char.

Definition chr (c : ascii) : string := String c EmptyString.

(** [s.startswith(p)] *)
Definition startswith (s p : string) : bool := String.prefix p s.

(** [s.replace(old, new)] for a non-empty [old]: occurrences are replaced
    from left to right without overlap.  [skip] counts the characters of
    a matched occurrence still to be dropped. *)
Fixpoint replace_from (old new : string) (skip : nat) (s : string) : string :=
  match s with
  | EmptyString => EmptyString
  | String c s' =>
      match skip with
      | S k => replace_from old new k s'
      | O =>
          if String.prefix old s
          then new ++ replace_from old new (String.length old - 1) s'
          else String c (replace_from old new 0 s')
      end
  end.

Definition replace (s old new : string) : string := replace_from old new 0 s.

(** [sep.join(parts)] *)
Fixpoint join (sep : string) (parts : list string) : string :=
  match parts with
  | [] => EmptyString
  | [p] => p
  | p :: ps => p ++ sep ++ join sep ps
  end.

(** [l[start:stop]] for non-negative bounds. *)
Definition slice {A : Type} (l : list A) (start stop : nat) : list A :=
  firstn (stop - start) (skipn start l).

(** [range(start, stop, step)] for a positive [step]. *)
Fixpoint range_from (fuel start stop step : nat) : list nat :=
  match fuel with
  | O => []
  | S fuel' =>
      if (start <? stop)%nat
      then start :: range_from fuel' (start + step) stop step
      else []
  end.

Definition range (start stop step : nat) : list nat :=
  range_from (stop - start) start stop step.

(** ["%d" % n] and ["%s" % n] for a non-negative integer. *)
Definition str_of_nat (n : nat) : string :=
  NilEmpty.string_of_uint (Nat.to_uint n).

Definition hex_digit (d : N) : ascii :=
  match d with
  | 0 => "0" | 1 => "1" | 2 => "2" | 3 => "3" | 4 => "4" | 5 => "5"
  | 6 => "6" | 7 => "7" | 8 => "8" | 9 => "9" | 10 => "a" | 11 => "b"
  | 12 => "c" | 13 => "d" | 14 => "e" | _ => "f"
  end%N%char.

(** The lowercase hexadecimal digits of [n], most significant first. *)
Fixpoint hex_from (fuel : nat) (n : N) (acc : string) : string :=
  let acc' := String (hex_digit (n mod 16)) acc in
  match fuel with
  | O => acc'
  | S fuel' => if (n / 16 =? 0)%N then acc' else hex_from fuel' (n / 16) acc'
  end.

Definition hex (n : N) : string :=
  hex_from (N.to_nat (N.size n)) n EmptyString.

Fixpoint zeros (k : nat) : string :=
  match k with
  | O => EmptyString
  | S k' => String "0" (zeros k')
  end.

(** The byte of value [n] modulo 256. *)
Definition byte_of_N (n : N) : byte :=
  match Byte.of_N (n mod 256) with
  | Some b => b
  | None => x00
  end.

(** ["%02x" % n]: at least two digits, padded with zeros on the left. *)
Definition format_02x (n : N) : string :=
  let h := hex n in zeros (2 - String.length h) ++ h.

End Py.

(** ** [base64.b64decode]

    The standard library's decoder, as CPython's [binascii.a2b_base64]
    runs it with strict mode off: characters outside the alphabet are
    skipped, a pad sequence that completes a quad ends the decoding, and
    data that stops inside a quad raises [binascii.Error]. *)

Module Base64.

Definition pad : ascii := "="%char.

(** The value of a character of the alphabet. *)
Definition table_a2b (c : ascii) : option N :=
  let n := N_of_ascii c in
  if ((65 <=? n) && (n <=? 90))%N then Some (n - 65)%N
  else if ((97 <=? n) && (n <=? 122))%N then Some (n - 71)%N
  else if ((48 <=? n) && (n <=? 57))%N then Some (n + 4)%N
  else if (n =? 43)%N then Some 62%N
  else if (n =? 47)%N then Some 63%N
  else None.

(** The decoding loop.  [quad_pos] is the position inside the current
    group of four characters, [leftchar] the bits not yet written,
    [pads] the pad characters seen since the last data character, and
    [out] the bytes written so far, last first. *)
Fixpoint a2b_loop (data : string) (quad_pos : nat) (leftchar : N)
    (pads : nat) (out : list byte) : result (list byte) :=
  match data with
  | EmptyString =>
      if (quad_pos =? 0)%nat then Ok (rev out) else Raise BinasciiError
  | String c rest =>
      if Ascii.eqb c pad then
        if (2 <=? quad_pos)%nat then
          if (4 <=? quad_pos + S pads)%nat then Ok (rev out)
          else a2b_loop rest quad_pos leftchar (S pads) out
        else a2b_loop rest quad_pos leftchar pads out
      else
        match table_a2b c with
        | None => a2b_loop rest quad_pos leftchar pads out
        | Some v =>
            match quad_pos with
            | 0 => a2b_loop rest 1 v 0 out
            | 1 =>
                a2b_loop rest 2 (N.land v 15) 0
                  (Py.byte_of_N (N.lor (N.shiftl leftchar 2) (N.shiftr v 4)) :: out)
            | 2 =>
                a2b_loop rest 3 (N.land v 3) 0
                  (Py.byte_of_N (N.lor (N.shiftl leftchar 4) (N.shiftr v 2)) :: out)
            | _ =>
                a2b_loop rest 0 0%N 0
                  (Py.byte_of_N (N.lor (N.shiftl leftchar 6) v) :: out)
            end
        end
  end.

Definition a2b_base64 (data : string) : result (list byte) :=
  a2b_loop data 0 0%N 0 [].

Fixpoint is_ascii (s : string) : bool :=
  match s with
  | EmptyString => true
  | String c s' => (N_of_ascii c <? 128)%N && is_ascii s'
  end.

(** [b64decode(s)] for a [str] argument: the string is encoded to ASCII
    first, which raises [ValueError] on any other character. *)
Definition b64decode (s : string) : result (list byte) :=
  if is_ascii s then a2b_base64 s else Raise ValueError.

End Base64.

(** ** [hashlib.sha256]

    SHA-256 as FIPS 180-4 defines it, on 32-bit words held in [N]. *)

Module SHA256.

Local Open Scope N_scope.

Definition mask32 : N := 0xffffffff.
Definition w32 (x : N) : N := N.land x mask32.
Definition add32 (x y : N) : N := w32 (x + y).
Definition rotr (n x : N) : N :=
  N.lor (N.shiftr x n) (w32 (N.shiftl x (32 - n))).
Definition shr (n x : N) : N := N.shiftr x n.
Definition not32 (x : N) : N := N.lxor x mask32.

Definition Ch (x y z : N) : N := N.lxor (N.land x y) (N.land (not32 x) z).
Definition Maj (x y z : N) : N :=
  N.lxor (N.lxor (N.land x y) (N.land x z)) (N.land y z).
Definition bsig0 (x : N) : N := N.lxor (N.lxor (rotr 2 x) (rotr 13 x)) (rotr 22 x).
Definition bsig1 (x : N) : N := N.lxor (N.lxor (rotr 6 x) (rotr 11 x)) (rotr 25 x).
Definition ssig0 (x : N) : N := N.lxor (N.lxor (rotr 7 x) (rotr 18 x)) (shr 3 x).
Definition ssig1 (x : N) : N := N.lxor (N.lxor (rotr 17 x) (rotr 19 x)) (shr 10 x).

(** The constants of the standard are taken from the first primes: the
    first 32 bits of the fractional part of the cube root of each of the
    first 64, and of the square root of each of the first 8. *)
Definition is_prime (n : N) : bool :=
  forallb (fun d => negb (n mod d =? 0))
    (map N.of_nat (seq 2 (N.to_nat n - 2))).

Definition primes : list N :=
  filter is_prime (map N.of_nat (seq 2 310)).

(** The integer part of the [k]-th root of [n], found bit by bit from
    bit [bits - 1] down. *)
Fixpoint root_bits (bits : nat) (k n r : N) : N :=
  match bits with
  | O => r
  | S b =>
      let r' := r + 2 ^ N.of_nat b in
      root_bits b k n (if r' ^ k <=? n then r' else r)
  end.

Definition frac_root (k p : N) : N :=
  w32 (root_bits 40 k (p * 2 ^ (32 * k)) 0).

Definition K : list N := Eval vm_compute in map (frac_root 3) primes.

(** The eight working variables, and the hash value between blocks. *)
Record regs : Type := Regs {
  ra : N; rb : N; rc : N; rd : N; re : N; rf : N; rg : N; rh : N }.

Definition H0 : regs :=
  Eval vm_compute in
    let h i := frac_root 2 (nth i primes 0) in
    Regs (h 0%nat) (h 1%nat) (h 2%nat) (h 3%nat)
         (h 4%nat) (h 5%nat) (h 6%nat) (h 7%nat).

(** Padding: a 1 bit, zeros up to 56 modulo 64 bytes, and the length of
    the message in bits as a 64-bit big-endian integer. *)
Fixpoint be_bytes (count : nat) (x : N) : list N :=
  match count with
  | O => []
  | S k => (N.shiftr x (8 * N.of_nat k)) mod 256 :: be_bytes k x
  end.

Definition pad (msg : list N) : list N :=
  let len := N.of_nat (List.length msg) in
  let zeros := N.to_nat ((119 - len mod 64) mod 64) in
  (msg ++ [0x80] ++ repeat 0 zeros ++ be_bytes 8 (8 * len))%list.

Fixpoint chunks {A : Type} (fuel size : nat) (l : list A) : list (list A) :=
  match fuel, l with
  | O, _ => []
  | _, [] => []
  | S fuel', _ => firstn size l :: chunks fuel' size (skipn size l)
  end.

Definition be_word (bs : list N) : N :=
  fold_left (fun acc b => acc * 256 + b) bs 0.

Definition words_of_block (block : list N) : list N :=
  map be_word (chunks 16 4 block).

(** The message schedule: words 16 to 63 are derived from the sixteen
    words of the block. *)
Fixpoint schedule_from (count : nat) (w : list N) : list N :=
  match count with
  | O => w
  | S k =>
      let t := List.length w in
      let at_ i := nth (t - i) w 0 in
      schedule_from k
        (w ++ [add32 (add32 (add32 (ssig1 (at_ 2%nat)) (at_ 7%nat))
                            (ssig0 (at_ 15%nat))) (at_ 16%nat)])%list
  end.

Definition schedule (block : list N) : list N :=
  schedule_from 48 (words_of_block block).

Definition round (r : regs) (kw : N * N) : regs :=
  let t1 := add32 (add32 (add32 (add32 (rh r) (bsig1 (re r)))
                                (Ch (re r) (rf r) (rg r))) (fst kw)) (snd kw) in
  let t2 := add32 (bsig0 (ra r)) (Maj (ra r) (rb r) (rc r)) in
  Regs (add32 t1 t2) (ra r) (rb r) (rc r) (add32 (rd r) t1) (re r) (rf r) (rg r).

Definition compress (h : regs) (block : list N) : regs :=
  let r := fold_left round (combine K (schedule block)) h in
  Regs (add32 (ra h) (ra r)) (add32 (rb h) (rb r)) (add32 (rc h) (rc r))
       (add32 (rd h) (rd r)) (add32 (re h) (re r)) (add32 (rf h) (rf r))
       (add32 (rg h) (rg r)) (add32 (rh h) (rh r)).

Definition word_bytes (x : N) : list byte :=
  map Py.byte_of_N (be_bytes 4 x).

Definition digest_of (h : regs) : list byte :=
  (word_bytes (ra h) ++ word_bytes (rb h) ++ word_bytes (rc h) ++
   word_bytes (rd h) ++ word_bytes (re h) ++ word_bytes (rf h) ++
   word_bytes (rg h) ++ word_bytes (rh h))%list.

(** [sha256(msg).digest()] *)
Definition sha256 (msg : list byte) : list byte :=
  let padded := pad (map Byte.to_N msg) in
  digest_of (fold_left compress (chunks (List.length padded) 64 padded) H0).

End SHA256.

(** ** The parsed JSON document

    What [r.json()] returns: [None], [bool], a number, [str], [list] or
    [dict].  A [dict] is the list of its items in insertion order, with
    distinct keys. *)

#[local] Set Warnings "-register-all".

Inductive json : Type :=
| JNull
| JBool (b : bool)
| JNum (literal : string)
| JStr (s : string)
| JArr (items : list json)
| JObj (members : list (string * json)).

Fixpoint lookup (key : string) (members : list (string * json)) : option json :=
  match members with
  | [] => None
  | (k, v) :: rest => if String.eqb k key then Some v else lookup key rest
  end.

(** [v[key]] for a [str] key: only a [dict] can be subscripted by one. *)
Definition getitem (v : json) (key : string) : result json :=
  match v with
  | JObj members =>
      match lookup key members with
      | Some x => Ok x
      | None => Raise (KeyError key)
      end
  | _ => Raise TypeError
  end.

(** The elements a [for] loop over [v] visits: the items of a [list], the
    keys of a [dict], the characters of a [str]. *)
Definition iter (v : json) : result (list json) :=
  match v with
  | JArr items => Ok items
  | JObj members => Ok (map (fun kv => JStr (fst kv)) members)
  | JStr s => Ok (map (fun c => JStr (Py.chr c)) (list_ascii_of_string s))
  | _ => Raise TypeError
  end.

(** [list(itertools.chain( *iterables ))] *)
Definition chain (iterables : list json) : result (list json) :=
  ls <- mapM iter iterables ;; Ok (List.concat ls).

(** ** The script *)

Definition HEADER : string :=
  "/* Generated by tools/make-tls-ct-logids.py" ++ Py.chr Py.nl.

Definition SOURCE_FILE : string := "epan/dissectors/packet-tls-utils.c".

Definition BYTES_PER_LINE : nat := 11.

Definition escape_c (s : string) : string :=
  Py.replace
    (Py.replace s (Py.chr Py.backslash) (String Py.backslash (Py.chr Py.backslash)))
    (Py.chr Py.dquote) (String Py.backslash (Py.chr Py.dquote)).

Definition byteshex (b : list byte) : string :=
  Py.join " " (map (fun x => "0x" ++ Py.format_02x (Byte.to_N x) ++ ",") b).

(** [escape_c(desc)] on a value of the document: only a [str] has a
    [replace] method. *)
Definition escape_c_value (desc : json) : result string :=
  match desc with
  | JStr s => Ok (escape_c s)
  | _ => Raise AttributeError
  end.

(** [b64decode(key)] on a value of the document: anything but a [str] is
    refused as not bytes-like. *)
Definition b64decode_value (key : json) : result (list byte) :=
  match key with
  | JStr s => Base64.b64decode s
  | _ => Raise TypeError
  end.

(** The body of the inner loop of [process_json]: one line of the array. *)
Definition id_line (key_id : list byte) (lines : string) (offset : nat) : string :=
  lines ++ "          "
        ++ byteshex (Py.slice key_id offset (offset + BYTES_PER_LINE))
        ++ Py.chr Py.nl.

(** The body of the outer loop of [process_json]: one entry of the table. *)
Definition entry_body (lines : string) (entry : json) : result string :=
  desc <- getitem entry "description" ;;
  key <- getitem entry "key" ;;
  pubkey_der <- b64decode_value key ;;
  let key_id := SHA256.sha256 pubkey_der in
  let lines := lines ++ "    { (const guint8[]){" ++ Py.chr Py.nl in
  let lines :=
    fold_left (id_line key_id)
      (Py.range 0 (List.length key_id) BYTES_PER_LINE) lines in
  let lines := lines ++ "      }," ++ Py.chr Py.nl in
  escaped <- escape_c_value desc ;;
  Ok (lines ++ "      " ++ Py.str_of_nat (List.length key_id) ++ ", "
            ++ Py.chr Py.dquote ++ escaped ++ Py.chr Py.dquote ++ " },"
            ++ Py.chr Py.nl).

Definition process_json (obj : json) (lastmod : string) : result string :=
  operators <- getitem obj "operators" ;;
  ops <- iter operators ;;
  logs_of_ops <- mapM (fun op => getitem op "logs") ops ;;
  logs <- chain logs_of_ops ;;
  let lines := HEADER in
  let lines :=
    lines ++ " * Last-Modified " ++ lastmod ++ ", "
          ++ Py.str_of_nat (List.length logs) ++ " entries. */" ++ Py.chr Py.nl in
  let lines := lines ++ "static const bytes_string ct_logids[] = {" ++ Py.chr Py.nl in
  lines <- for_each entry_body logs lines ;;
  let lines := lines ++ "    { NULL, 0, NULL }" ++ Py.chr Py.nl in
  Ok (lines ++ "};" ++ Py.chr Py.nl).

(** ** The source file *)

(** The lines a loop over an open text file yields: each one ends with its
    newline, except possibly the last. *)
Fixpoint readlines (content : string) : list string :=
  match content with
  | EmptyString => []
  | String c rest =>
      if Ascii.eqb c Py.nl then Py.chr c :: readlines rest
      else
        match readlines rest with
        | [] => [Py.chr c]
        | line :: more => String c line :: more
        end
  end.

(** The local variables of [parse_source]. *)
Record parse_state : Type := ParseState {
  stage : nat;
  p_begin : string;
  p_block : string;
  p_end : string }.

(** The body of the loop of [parse_source]. *)
Definition parse_line (st : parse_state) (line : string) : parse_state :=
  let stage := if String.eqb line HEADER then 2 else stage st in
  if (stage =? 1)%nat then
    ParseState stage (p_begin st ++ line) (p_block st) (p_end st)
  else if (stage =? 2)%nat then
    let block := p_block st ++ line in
    if Py.startswith line "}" then ParseState 3 (p_begin st) block (p_end st)
    else ParseState stage (p_begin st) block (p_end st)
  else if (stage =? 3)%nat then
    ParseState stage (p_begin st) (p_block st) (p_end st ++ line)
  else
    ParseState stage (p_begin st) (p_block st) (p_end st).

Definition parse_lines (lines : list string) : result (string * string * string) :=
  let st := fold_left parse_line lines
              (ParseState 1 EmptyString EmptyString EmptyString) in
  if negb (stage st =? 3)%nat then
    Raise (RuntimeError ("Could not parse file (in stage "
                           ++ Py.str_of_nat (stage st) ++ ")"))
  else Ok (p_begin st, p_block st, p_end st).

(** What a run does to the outside, in order. *)
Inductive effect : Type :=
| OpenForWriting
| WriteText (s : string)
| PrintLine (s : string).

(** The state outside the program: the file at [SOURCE_FILE], absent or
    with its text as a reader in text mode is handed it, and what the run
    has done so far. *)
Record world : Type := World {
  source_file : option string;
  effects : list effect }.

(** [parse_source()] on the file as it is. *)
Definition parse_source (w : world) : result (string * string * string) :=
  match source_file w with
  | None => Raise FileNotFoundError
  | Some content => parse_lines (readlines content)
  end.

(** What a reader in text mode is handed for written characters: a
    carriage return, alone or in front of a newline, is a line end and
    comes as one newline. *)
Fixpoint universal_newlines (s : string) : string :=
  match s with
  | EmptyString => EmptyString
  | String c rest =>
      if Ascii.eqb c Py.cr then
        String Py.nl
          match rest with
          | String d rest' =>
              if Ascii.eqb d Py.nl then universal_newlines rest'
              else universal_newlines rest
          | EmptyString => EmptyString
          end
      else String c (universal_newlines rest)
  end.

(** The characters written to the file since it was last opened for
    writing. *)
Definition written (done : list effect) : string :=
  fold_left
    (fun raw op =>
       match op with
       | OpenForWriting => EmptyString
       | WriteText s => raw ++ s
       | PrintLine _ => raw
       end)
    done EmptyString.

(** [print(s)], when it succeeds. *)
Definition print (s : string) (w : world) : world :=
  World (source_file w) (effects w ++ [PrintLine s])%list.

(** [open(SOURCE_FILE, "w")], when it succeeds: the file is created or
    emptied. *)
Definition open_w (w : world) : world :=
  World (Some EmptyString) (effects w ++ [OpenForWriting])%list.

(** [f.write(s)], when it succeeds, on the file opened for writing, on a
    system whose line separator is the newline: the characters go to the
    file as they are, and a reader is handed them with the line ends
    translated. *)
Definition write (s : string) (w : world) : world :=
  let done := (effects w ++ [WriteText s])%list in
  World (Some (universal_newlines (written done))) done.

(** A failure: the exception raised, and for a write how many of the
    characters written since the file was opened, the text of the failing
    write included, have reached the file. *)
Record fault : Type := Fault {
  raised : exn;
  kept : nat }.

(** What fails: for what the run has done so far and what it tries next,
    the failure that happens instead, if any (no permission to open the
    file, a character the encoding does not have, a full disk, a closed
    output).  A failure when the file is closed counts as one of the last
    write. *)
Definition io_faults : Type := list effect -> effect -> option fault.

Definition no_faults : io_faults := fun _ _ => None.

Definition perform (op : effect) (w : world) : world :=
  match op with
  | OpenForWriting => open_w w
  | WriteText s => write s w
  | PrintLine s => print s w
  end.

(** What a failure leaves: a write that fails leaves in the file a
    leading part of the characters written; opening and printing leave
    the world as it is. *)
Definition fail (op : effect) (f : fault) (w : world) : world :=
  match op with
  | WriteText s =>
      World (Some (universal_newlines
                     (substring 0 (kept f) (written (effects w) ++ s))))
            (effects w)
  | _ => w
  end.

(** One operation on the outside: it is done, or it fails and raises. *)
Definition attempt (io : io_faults) (op : effect) (w : world)
  : world * result unit :=
  match io (effects w) op with
  | Some f => (fail op f w, Raise (raised f))
  | None => (perform op w, Ok tt)
  end.

(** The next statement runs only if the one before did not raise. *)
Definition and_then (m : world * result unit)
    (k : world -> world * result unit) : world * result unit :=
  match m with
  | (w, Ok _) => k w
  | (w, Raise e) => (w, Raise e)
  end.

(** The answer of [requests.get]: the body as [r.json()] parses it and the
    headers, whose names compare without case; a name that is not there
    raises [KeyError] with the name in lower case. *)
Record response : Type := Response {
  r_json : result json;
  r_headers : list (string * string) }.

Definition lower_ascii (c : ascii) : ascii :=
  let n := N_of_ascii c in
  if ((65 <=? n) && (n <=? 90))%N then ascii_of_N (n + 32) else c.

Fixpoint lower (s : string) : string :=
  match s with
  | EmptyString => EmptyString
  | String c s' => String (lower_ascii c) (lower s')
  end.

Fixpoint header_lookup (name : string) (headers : list (string * string))
  : result string :=
  match headers with
  | [] => Raise (KeyError (lower name))
  | (k, v) :: rest =>
      if String.eqb (lower k) (lower name) then Ok v else header_lookup name rest
  end.

(** [main()], given what fails, the [--update] flag and what the request
    returned.  The result is the world the run leaves, and the exception
    that ended the run if one did.  An exception inside the [with] block
    closes the file with what was written before it. *)
Definition main_io (io : io_faults) (update : bool) (get : result response)
    (w : world) : world * result unit :=
  match (r <- get ;;
         obj <- r_json r ;;
         lastmod <- header_lookup "Last-Modified" (r_headers r) ;;
         process_json obj lastmod) with
  | Raise e => (w, Raise e)
  | Ok code =>
      if update then
        match parse_source w with
        | Raise e => (w, Raise e)
        | Ok (begin, block, end_) =>
            if String.eqb block code then
              attempt io (PrintLine "File is up-to-date") w
            else
              and_then (attempt io OpenForWriting w) (fun w =>
              and_then (attempt io (WriteText begin) w) (fun w =>
              and_then (attempt io (WriteText code) w) (fun w =>
              and_then (attempt io (WriteText end_) w) (fun w =>
              attempt io (PrintLine ("Updated " ++ SOURCE_FILE)) w))))
        end
      else attempt io (PrintLine code) w
  end.

(** [main()] when opening, writing and printing do not fail. *)
Definition main (update : bool) (get : result response) (w : world)
  : world * result unit :=
  main_io no_faults update get w.

(** ** Notions of the specification

    The definitions below are not functions of the script: they name what
    the statements about it talk about. *)

(** The escaping rule, character by character: a backslash becomes two, a
    double quote gets a backslash in front, any other character stays. *)
Definition escape_char (c : ascii) : string :=
  if Ascii.eqb c Py.backslash then String Py.backslash (Py.chr Py.backslash)
  else if Ascii.eqb c Py.dquote then String Py.backslash (Py.chr Py.dquote)
  else Py.chr c.

(** [expand f s] replaces every character [c] of [s] by [f c]. *)
Fixpoint expand (f : ascii -> string) (s : string) : string :=
  match s with
  | EmptyString => EmptyString
  | String c s' => f c ++ expand f s'
  end.

(** Reading the two escapes back: a backslash followed by a backslash or a
    double quote stands for that second character. *)
Fixpoint unescape_c (s : string) : string :=
  match s with
  | EmptyString => EmptyString
  | String c rest =>
      if Ascii.eqb c Py.backslash then
        match rest with
        | String d rest' =>
            if Ascii.eqb d Py.backslash || Ascii.eqb d Py.dquote
            then String d (unescape_c rest')
            else String c (unescape_c rest)
        | EmptyString => Py.chr c
        end
      else String c (unescape_c rest)
  end.

(** [c in s] *)
Fixpoint contains (c : ascii) (s : string) : bool :=
  match s with
  | EmptyString => false
  | String d s' => Ascii.eqb d c || contains c s'
  end.

(** The text of a list of lines, each closed by a newline. *)
Fixpoint unlines (ls : list string) : string :=
  match ls with
  | [] => EmptyString
  | l :: ls' => l ++ Py.chr Py.nl ++ unlines ls'
  end.

(** The pieces of a list of strings put end to end. *)
Fixpoint cat (ls : list string) : string :=
  match ls with
  | [] => EmptyString
  | l :: ls' => l ++ cat ls'
  end.

(** The logs of the document, operator after operator: the value of
    [logs] in [process_json]. *)
Definition flat_logs (obj : json) : result (list json) :=
  operators <- getitem obj "operators" ;;
  ops <- iter operators ;;
  logs_of_ops <- mapM (fun op => getitem op "logs") ops ;;
  chain logs_of_ops.

(** What one turn of the outer loop of [process_json] appends. *)
Definition render_entry (entry : json) : result string :=
  entry_body EmptyString entry.

(** What the inner loop of [process_json] appends for a log ID. *)
Definition id_lines (key_id : list byte) : string :=
  fold_left (id_line key_id)
    (Py.range 0 (List.length key_id) BYTES_PER_LINE) EmptyString.

(** An entry of the table, for a log ID and a description. *)
Definition entry_text (key_id : list byte) (desc : string) : string :=
  "    { (const guint8[]){" ++ Py.chr Py.nl
  ++ id_lines key_id
  ++ "      }," ++ Py.chr Py.nl
  ++ "      " ++ Py.str_of_nat (List.length key_id) ++ ", "
  ++ Py.chr Py.dquote ++ escape_c desc ++ Py.chr Py.dquote ++ " },"
  ++ Py.chr Py.nl.

(** The block, for the count written in its comment and its entries. *)
Definition block_text (lastmod : string) (count : nat) (entries : list string)
  : string :=
  HEADER
  ++ " * Last-Modified " ++ lastmod ++ ", " ++ Py.str_of_nat count
  ++ " entries. */" ++ Py.chr Py.nl
  ++ "static const bytes_string ct_logids[] = {" ++ Py.chr Py.nl
  ++ cat entries
  ++ "    { NULL, 0, NULL }" ++ Py.chr Py.nl
  ++ "};" ++ Py.chr Py.nl.

(** An operator of the document that has a [logs] list. *)
Definition has_logs (op : json) (logs : list json) : Prop :=
  exists members, op = JObj members /\ lookup "logs" members = Some (JArr logs).

(** A log entry of the data model: a description and a key that decodes. *)
Definition log_entry (entry : json) (desc key : string) (der : list byte) : Prop :=
  exists members,
    entry = JObj members
    /\ lookup "description" members = Some (JStr desc)
    /\ lookup "key" members = Some (JStr key)
    /\ Base64.b64decode key = Ok der.

Definition valid_log (entry : json) : Prop :=
  exists desc key der, log_entry entry desc key der.

(** The table entry as the claims read it: three lines of the array for a
    log ID cut after its 11th and 22nd byte, and the length written out. *)
Definition entry_lines (key_id : list byte) (desc : string) : list string :=
  [ "    { (const guint8[]){";
    "          " ++ byteshex (firstn 11 key_id);
    "          " ++ byteshex (firstn 11 (skipn 11 key_id));
    "          " ++ byteshex (skipn 22 key_id);
    "      },";
    "      32, " ++ Py.chr Py.dquote ++ escape_c desc ++ Py.chr Py.dquote ++ " }," ].

(** The value of a lowercase hexadecimal digit. *)
Definition hex_value (c : ascii) : option N :=
  let n := N_of_ascii c in
  if ((48 <=? n) && (n <=? 57))%N then Some (n - 48)%N
  else if ((97 <=? n) && (n <=? 102))%N then Some (n - 87)%N
  else None.

(** Reading an array literal back: every [0xHH] of the text, in order. *)
Fixpoint read_bytes (s : string) : list byte :=
  match s with
  | EmptyString => []
  | String c s1 =>
      if Ascii.eqb c "0" then
        match s1 with
        | String x (String h (String l rest)) =>
            if Ascii.eqb x "x" then
              match hex_value h, hex_value l with
              | Some hi, Some lo =>
                  Py.byte_of_N (16 * hi + lo) :: read_bytes rest
              | _, _ => read_bytes s1
              end
            else read_bytes s1
        | _ => read_bytes s1
        end
      else read_bytes s1
  end.

(** The document of the end-to-end scenario: one operator with one log,
    described as [Test Log], whose key is the base64 text of no bytes. *)
Definition test_log : json :=
  JObj [("description", JStr "Test Log"); ("key", JStr EmptyString)].

Definition test_json : json :=
  JObj [("operators", JArr [JObj [("logs", JArr [test_log])]])].

(** SHA-256 of the empty byte sequence. *)
Definition sha256_empty : list byte :=
  [ xe3; xb0; xc4; x42; x98; xfc; x1c; x14; x9a; xfb; xf4;
    xc8; x99; x6f; xb9; x24; x27; xae; x41; xe4; x64; x9b;
    x93; x4c; xa4; x95; x99; x1b; x78; x52; xb8; x55 ].

(** A source file in which the header line comes back after the block:
    the block, a line of other text, and a second header with its closing
    brace. *)
Definition two_headers : string :=
  HEADER ++ unlines ["};"; "int x;"] ++ HEADER ++ unlines ["}"].

(** The answer that carries the document of the end-to-end scenario. *)
Definition test_response : response :=
  Response (Ok test_json) [("last-modified", "Thu, 01 Jan 1970 00:00:00 GMT")].

(** The block generated from the answer of the scenario. *)
Definition test_block : string :=
  match process_json test_json "Thu, 01 Jan 1970 00:00:00 GMT" with
  | Ok code => code
  | Raise _ => EmptyString
  end.

(** A source file that holds that block between two lines of its own. *)
Definition patched_file : string :=
  unlines ["#include <glib.h>"] ++ test_block ++ unlines ["int x;"].

(** What holds of the local [block] of [parse_source] from line to line. *)
Definition block_invariant (st : parse_state) : Prop :=
  match stage st with
  | 1 => p_block st = EmptyString
  | 2 => exists text, p_block st = HEADER ++ text
  | 3 => exists text close,
           p_block st = HEADER ++ text ++ close
           /\ Py.startswith close "}" = true
  | _ => False
  end.

(** An operator of the document with a [logs] member, whatever it holds. *)
Definition has_logs_member (op : json) : Prop :=
  exists members value, op = JObj members /\ lookup "logs" members = Some value.

(** Whether [s] can stand between the quotes of a C string literal, as far
    as quotes and backslashes go: a backslash takes the character after it
    along, and no double quote stands on its own. *)
Fixpoint literal_body (s : string) : bool :=
  match s with
  | EmptyString => true
  | String c rest =>
      if Ascii.eqb c Py.backslash then
        match rest with
        | EmptyString => false
        | String _ rest' => literal_body rest'
        end
      else if Ascii.eqb c Py.dquote then false
      else literal_body rest
  end.

(** A line that starts with a closing brace. *)
Definition brace_line (line : string) : Prop := Py.startswith line "}" = true.

(** What the stage of [parse_source] says about the lines read so far:
    stage 1, no header line yet; stage 2, no line after the last header
    line starts with a closing brace; stage 3, one does. *)
Definition stage_spec (n : nat) (lines : list string) : Prop :=
  match n with
  | 1 => ~ In HEADER lines
  | 2 => exists front rest,
           lines = (front ++ HEADER :: rest)%list
           /\ ~ In HEADER rest
           /\ Forall (fun line => Py.startswith line "}" = false) rest
  | 3 => exists front rest,
           lines = (front ++ HEADER :: rest)%list
           /\ ~ In HEADER rest
           /\ Exists brace_line rest
  | _ => False
  end.

(** The state [parse_source] starts from. *)
Definition parse_init : parse_state :=
  ParseState 1 EmptyString EmptyString EmptyString.

(** The characters held by the three parts together. *)
Definition parts_size (st : parse_state) : nat :=
  String.length (p_begin st) + String.length (p_block st)
  + String.length (p_end st).

(** A line closed by its newline, the only one in it. *)
Definition terminated (line : string) : Prop :=
  exists body, line = body ++ Py.chr Py.nl /\ contains Py.nl body = false.

(** A log entry whose description is written on one line: it holds no
    newline and no carriage return. *)
Definition plain_log (entry : json) : Prop :=
  exists desc key der,
    log_entry entry desc key der
    /\ contains Py.nl desc = false
    /\ contains Py.cr desc = false.

(** A line of the block between its first and its last: it has no newline
    inside and, closed by one, does not start with a closing brace. *)
Definition inner_line (line : string) : Prop :=
  contains Py.nl line = false
  /\ Py.startswith (line ++ Py.chr Py.nl) "}" = false.

(** A block that [parse_source] reads as one block: the header line,
    lines that do not start with a closing brace, and the closing line. *)
Definition one_block (code : string) : Prop :=
  exists mid,
    code = HEADER ++ cat mid ++ "};" ++ Py.chr Py.nl
    /\ Forall terminated mid
    /\ Forall (fun line => Py.startswith line "}" = false) mid.

(** A log without a key, and a document that holds it between two logs
    of the scenario. *)
Definition keyless_log : json := JObj [("description", JStr "No key")].

Definition keyless_json : json :=
  JObj [("operators",
         JArr [JObj [("logs", JArr [test_log; keyless_log; test_log])]])].

(** Two logs of one operator, and the same two logs of two operators. *)
Definition one_operator_json : json :=
  JObj [("operators", JArr [JObj [("logs", JArr [test_log; test_log])]])].

Definition two_operators_json : json :=
  JObj [("operators",
         JArr [JObj [("logs", JArr [test_log])];
               JObj [("logs", JArr [test_log])]])].

(** A source file whose block is an empty table: it is out of date. *)
Definition outdated_file : string :=
  unlines ["#include <glib.h>"] ++ HEADER ++ unlines ["};"; "int x;"].

(** A document with three operators: one log, no log, two logs. *)
Definition second_log : json :=
  JObj [("description", JStr "Second Log"); ("key", JStr "AQID")].

Definition third_log : json :=
  JObj [("key", JStr "/+8=");
        ("description",
         JStr ("The " ++ Py.chr Py.dquote ++ "third" ++ Py.chr Py.dquote
                      ++ " log"))].

Definition three_operators_json : json :=
  JObj [("operators",
         JArr [JObj [("name", JStr "A"); ("logs", JArr [test_log])];
               JObj [("logs", JArr [])];
               JObj [("logs", JArr [second_log; third_log])]])].

(** The block generated from it. *)
Definition three_operators_block : string :=
  match process_json three_operators_json "Thu, 01 Jan 1970 00:00:00 GMT" with
  | Ok code => code
  | Raise _ => EmptyString
  end.

(** The lines the block is made of, by the stage [parse_source] is in:
    none in stage 1; the header line and what follows in stage 2; in
    stage 3 the last of them starts with a closing brace. *)
Definition block_shape (n : nat) (block_lines : list string) : Prop :=
  match n with
  | 1 => block_lines = []
  | 2 => exists mid, block_lines = HEADER :: mid
  | 3 => exists mid close,
           block_lines = (HEADER :: mid ++ [close])%list /\ brace_line close
  | _ => False
  end.

(** A disk on which writing the block of the scenario fails, for want of
    a character in the encoding, and leaves what was written before it;
    everything else is done. *)
Definition block_unencodable : io_faults :=
  fun done op =>
    match op with
    | WriteText s =>
        if String.eqb s test_block
        then Some (Fault UnicodeEncodeError (String.length (written done)))
        else None
    | _ => None
    end.

(** * Properties *)

(** ** Known answers of the two library functions *)

Example sha256_abc :
  SHA256.sha256 (list_byte_of_string "abc")
  = [ xba; x78; x16; xbf; x8f; x01; xcf; xea; x41; x41; x40; xde; x5d;
    xae; x22; x23; xb0; x03; x61; xa3; x96; x17; x7a; x9c; xb4; x10;
    xff; x61; xf2; x00; x15; xad ].
Proof. vm_compute. reflexivity. Qed.

Example sha256_two_blocks :
  SHA256.sha256
    (list_byte_of_string "abcdbcdecdefdefgefghfghighijhijkijkljklmklmnlmnomnopnopq")
  = [ x24; x8d; x6a; x61; xd2; x06; x38; xb8; xe5; xc0; x26; x93; x0c;
    x3e; x60; x39; xa3; x3c; xe4; x59; x64; xff; x21; x67; xf6; xec;
    xed; xd4; x19; xdb; x06; xc1 ].
Proof. vm_compute. reflexivity. Qed.

Example b64decode_text :
  Base64.b64decode "TWFueSBoYW5kcyBtYWtlIGxpZ2h0IHdvcmsu"
  = Ok (list_byte_of_string "Many hands make light work.").
Proof. reflexivity. Qed.

Example b64decode_padded :
  Base64.b64decode "/+8=" = Ok [xff; xef]
  /\ Base64.b64decode "AQ==" = Ok [x01]
  /\ Base64.b64decode "AQ==AQ==" = Ok [x01]
  /\ Base64.b64decode "AQ*Q==" = Ok [x01; x04].
Proof. repeat split; reflexivity. Qed.

Example b64decode_refused :
  Base64.b64decode "A" = Raise BinasciiError
  /\ Base64.b64decode "AA=" = Raise BinasciiError
  /\ Base64.b64decode "AAAAA" = Raise BinasciiError
  /\ Base64.b64decode (Py.chr "233") = Raise ValueError.
Proof. repeat split; reflexivity. Qed.

Example escape_c_both :
  escape_c ("a" ++ Py.chr Py.backslash ++ Py.chr Py.dquote ++ "b")
  = "a" ++ Py.chr Py.backslash ++ Py.chr Py.backslash
        ++ Py.chr Py.backslash ++ Py.chr Py.dquote ++ "b".
Proof. reflexivity. Qed.

Example replace_leftmost : Py.replace "aXXXbXXc" "XX" "y" = "ayXbyc".
Proof. reflexivity. Qed.

Example range_32 : Py.range 0 32 11 = [0; 11; 22].
Proof. reflexivity. Qed.

Example readlines_keeps_ends :
  readlines ("ab" ++ Py.chr Py.nl ++ Py.chr Py.nl ++ "c")
  = ["ab" ++ Py.chr Py.nl; Py.chr Py.nl; "c"].
Proof. reflexivity. Qed.

Example sha256_constants :
  List.length SHA256.K = 64
  /\ nth 0 SHA256.K 0%N = 0x428a2f98%N
  /\ nth 63 SHA256.K 0%N = 0xc67178f2%N
  /\ SHA256.ra SHA256.H0 = 0x6a09e667%N
  /\ SHA256.rh SHA256.H0 = 0x5be0cd19%N.
Proof. repeat split; reflexivity. Qed.
(** ** Strings *)

Lemma append_assoc (a b c : string) : (a ++ b) ++ c = a ++ b ++ c.
Proof. induction a as [|x a IH]; simpl; [reflexivity | now rewrite IH]. Qed.

Lemma append_nil_r (a : string) : a ++ EmptyString = a.
Proof. induction a as [|x a IH]; simpl; [reflexivity | now rewrite IH]. Qed.

(** Strings built with [++] compared up to the grouping of the pieces. *)
Ltac string_assoc :=
  repeat first [ rewrite append_assoc | progress cbn [append] ];
  try reflexivity.

Lemma prefix_nil (s : string) : String.prefix EmptyString s = true.
Proof. destruct s; reflexivity. Qed.

Lemma prefix_chr (a c : ascii) (s : string) :
  String.prefix (Py.chr a) (String c s) = Ascii.eqb c a.
Proof.
  unfold Py.chr. simpl. destruct (ascii_dec a c) as [->|Hne].
  - now rewrite prefix_nil, Ascii.eqb_refl.
  - symmetry. apply Ascii.eqb_neq. congruence.
Qed.

Lemma replace_chr (a : ascii) (new s : string) :
  Py.replace s (Py.chr a) new
  = expand (fun c => if Ascii.eqb c a then new else Py.chr c) s.
Proof.
  unfold Py.replace. induction s as [|c s IH].
  - reflexivity.
  - cbn [Py.replace_from expand]. rewrite prefix_chr.
    destruct (Ascii.eqb c a); cbn; now rewrite IH.
Qed.

Lemma expand_app (f : ascii -> string) (s t : string) :
  expand f (s ++ t) = expand f s ++ expand f t.
Proof.
  induction s as [|c s IH]; simpl; [reflexivity|].
  now rewrite IH, append_assoc.
Qed.

Lemma escape_c_expand (s : string) : escape_c s = expand escape_char s.
Proof.
  unfold escape_c. rewrite !replace_chr.
  induction s as [|c s IH]; [reflexivity|].
  cbn [expand]. rewrite expand_app, IH. f_equal.
  unfold escape_char.
  destruct (Ascii.eqb c Py.backslash) eqn:Hb.
  - reflexivity.
  - destruct (Ascii.eqb c Py.dquote) eqn:Hq; cbn; rewrite Hq; reflexivity.
Qed.

Lemma unescape_escape (s : string) : unescape_c (expand escape_char s) = s.
Proof.
  induction s as [|c s IH]; [reflexivity|].
  cbn [expand]. unfold escape_char at 1.
  destruct (Ascii.eqb c Py.backslash) eqn:Hb.
  - apply Ascii.eqb_eq in Hb. subst c. cbn -[expand]. now rewrite IH.
  - destruct (Ascii.eqb c Py.dquote) eqn:Hq.
    + apply Ascii.eqb_eq in Hq. subst c. cbn -[expand]. now rewrite IH.
    + cbn [Py.chr append unescape_c]. rewrite Hb. now rewrite IH.
Qed.

Lemma expand_clean (s : string) :
  contains Py.backslash s = false -> contains Py.dquote s = false ->
  expand escape_char s = s.
Proof.
  induction s as [|c s IH]; [reflexivity|].
  cbn [contains expand]. intros Hb Hq.
  apply orb_false_iff in Hb as [Hb Hb'], Hq as [Hq Hq'].
  unfold escape_char at 1. rewrite Hb, Hq. cbn -[expand]. now rewrite IH.
Qed.

(** C7: [escape_c] puts a backslash in front of every backslash and of
    every double quote and leaves every other character as it is; reading
    the two escapes back gives the description again; a description with
    neither character is its own escaped form. *)
Theorem escape_c_rule_and_roundtrip (s : string) :
  escape_c s = expand escape_char s
  /\ unescape_c (escape_c s) = s
  /\ (contains Py.backslash s = false -> contains Py.dquote s = false ->
      escape_c s = s).
Proof.
  rewrite escape_c_expand. split; [reflexivity|]. split.
  - apply unescape_escape.
  - apply expand_clean.
Qed.

(** ** The error monad *)

Lemma mapM_Ok_iff {A B : Type} (f : A -> result B) (l : list A) (bs : list B) :
  mapM f l = Ok bs <-> Forall2 (fun a b => f a = Ok b) l bs.
Proof.
  revert bs. induction l as [|a l IH]; intros bs; cbn.
  - split.
    + intros H. injection H as <-. constructor.
    + intros H. inversion H. reflexivity.
  - destruct (f a) as [b|e] eqn:Hfa; cbn.
    + destruct (mapM f l) as [bs'|e] eqn:Hl; cbn.
      * split.
        -- intros H. injection H as <-. constructor; [assumption|]. now apply IH.
        -- intros H. inversion H as [|? b0 ? bs0 Hb Hrest]; subst.
           rewrite Hfa in Hb. injection Hb as <-.
           apply IH in Hrest. now injection Hrest as <-.
      * split; [discriminate|].
        intros H. inversion H as [|? b0 ? bs0 Hb Hrest]; subst.
        apply IH in Hrest. discriminate.
    + split; [discriminate|].
      intros H. inversion H as [|? b0 ? bs0 Hb Hrest]; subst. congruence.
Qed.

Lemma mapM_length {A B : Type} (f : A -> result B) (l : list A) (bs : list B) :
  mapM f l = Ok bs -> List.length bs = List.length l.
Proof.
  intros H. apply mapM_Ok_iff in H.
  induction H; cbn; congruence.
Qed.

Lemma mapM_total {A B : Type} (f : A -> result B) (l : list A) :
  Forall (fun a => exists b, f a = Ok b) l -> exists bs, mapM f l = Ok bs.
Proof.
  induction 1 as [|a l [b Hb] _ [bs Hbs]]; cbn.
  - now exists [].
  - exists (b :: bs). now rewrite Hb, Hbs.
Qed.

(** ** The transformer *)

Lemma cat_app (xs ys : list string) : cat (xs ++ ys) = cat xs ++ cat ys.
Proof.
  induction xs as [|x xs IH]; cbn; [reflexivity|].
  now rewrite IH, append_assoc.
Qed.

Lemma fold_id_line (key_id : list byte) (offsets : list nat) (lines : string) :
  fold_left (id_line key_id) offsets lines
  = lines ++ fold_left (id_line key_id) offsets EmptyString.
Proof.
  revert lines. induction offsets as [|o offsets IH]; intros lines; cbn [fold_left].
  - now rewrite append_nil_r.
  - rewrite IH. rewrite (IH (id_line key_id EmptyString o)).
    unfold id_line. string_assoc.
Qed.

Lemma render_entry_log (entry : json) (desc key : string) (der : list byte) :
  log_entry entry desc key der ->
  render_entry entry = Ok (entry_text (SHA256.sha256 der) desc).
Proof.
  intros (members & -> & Hdesc & Hkey & Hder).
  unfold render_entry, entry_body, getitem. rewrite Hdesc, Hkey. cbn [bind].
  cbn [b64decode_value]. rewrite Hder. cbn [bind escape_c_value].
  f_equal. unfold entry_text, id_lines. cbn [append].
  rewrite fold_id_line. string_assoc.
Qed.

Lemma render_entry_inv (entry : json) (text : string) :
  render_entry entry = Ok text ->
  exists desc key der,
    log_entry entry desc key der /\ text = entry_text (SHA256.sha256 der) desc.
Proof.
  intros H.
  assert (Hlog : exists desc key der, log_entry entry desc key der).
  { unfold render_entry, entry_body in H.
    destruct entry as [| | | |items|members]; try discriminate.
    cbn [getitem] in H.
    destruct (lookup "description" members) as [desc|] eqn:Hdesc; [|discriminate].
    destruct (lookup "key" members) as [key|] eqn:Hkey; [|discriminate].
    cbn [bind] in H.
    destruct key as [| | |key| |]; try discriminate.
    cbn [b64decode_value] in H.
    destruct (Base64.b64decode key) as [der|] eqn:Hder; [|discriminate].
    cbn [bind] in H.
    destruct desc as [| | |desc| |]; try discriminate.
    exists desc, key, der, members. auto. }
  destruct Hlog as (desc & key & der & Hlog).
  exists desc, key, der. split; [assumption|].
  rewrite (render_entry_log _ _ _ _ Hlog) in H. now injection H as <-.
Qed.

Lemma entry_body_app (lines : string) (entry : json) :
  entry_body lines entry = (text <- render_entry entry ;; Ok (lines ++ text)).
Proof.
  unfold render_entry, entry_body.
  destruct (getitem entry "description") as [desc|]; [|reflexivity].
  destruct (getitem entry "key") as [key|]; [|reflexivity].
  cbn [bind].
  destruct (b64decode_value key) as [der|]; [|reflexivity].
  cbn [bind].
  destruct (escape_c_value desc) as [escaped|]; [|reflexivity].
  cbn [bind append]. f_equal.
  rewrite (fold_id_line _ _ (lines ++ _)).
  rewrite (fold_id_line _ _ (String _ _)).
  string_assoc.
Qed.

Lemma for_each_entry_body (logs : list json) (lines : string) :
  for_each entry_body logs lines
  = (texts <- mapM render_entry logs ;; Ok (lines ++ cat texts)).
Proof.
  revert lines. induction logs as [|entry logs IH]; intros lines; cbn.
  - now rewrite append_nil_r.
  - rewrite entry_body_app.
    destruct (render_entry entry) as [text|]; [|reflexivity].
    cbn [bind]. rewrite IH.
    destruct (mapM render_entry logs) as [texts|]; [|reflexivity].
    cbn. now rewrite append_assoc.
Qed.

Lemma process_json_unfold (obj : json) (lastmod : string) :
  process_json obj lastmod
  = (logs <- flat_logs obj ;;
     texts <- mapM render_entry logs ;;
     Ok (block_text lastmod (List.length logs) texts)).
Proof.
  unfold process_json, flat_logs.
  destruct (getitem obj "operators") as [operators|]; [|reflexivity].
  cbn [bind].
  destruct (iter operators) as [ops|]; [|reflexivity].
  cbn [bind].
  destruct (mapM _ ops) as [logs_of_ops|]; [|reflexivity].
  cbn [bind].
  destruct (chain logs_of_ops) as [logs|]; [|reflexivity].
  cbn [bind]. rewrite for_each_entry_body.
  destruct (mapM render_entry logs) as [texts|]; [|reflexivity].
  cbn [bind]. f_equal. unfold block_text. string_assoc.
Qed.

Lemma flat_logs_shape (members : list (string * json)) (ops : list json)
    (logss : list (list json)) :
  lookup "operators" members = Some (JArr ops) ->
  Forall2 has_logs ops logss ->
  flat_logs (JObj members) = Ok (List.concat logss).
Proof.
  intros Hops Hlogs. unfold flat_logs. unfold getitem at 1. rewrite Hops. cbn [bind iter].
  assert (Hget : mapM (fun op => getitem op "logs") ops = Ok (map JArr logss)).
  { apply mapM_Ok_iff. clear Hops. induction Hlogs as [|op logs ops logss Hop _ IH]; cbn.
    - constructor.
    - constructor; [|assumption].
      destruct Hop as (m & -> & Hm). cbn. now rewrite Hm. }
  rewrite Hget. cbn [bind]. unfold chain.
  assert (Hiter : mapM iter (map JArr logss) = Ok logss).
  { apply mapM_Ok_iff. clear. induction logss; cbn; constructor; auto. }
  now rewrite Hiter.
Qed.

Lemma sha256_length (msg : list byte) : List.length (SHA256.sha256 msg) = 32.
Proof.
  unfold SHA256.sha256, SHA256.digest_of.
  rewrite !length_app. reflexivity.
Qed.

(** ** The layout of a log ID *)

Lemma format_02x_byte (b : byte) :
  exists h l : ascii,
    String.get (N.to_nat (Byte.to_N b / 16)) "0123456789abcdef" = Some h
    /\ String.get (N.to_nat (Byte.to_N b mod 16)) "0123456789abcdef" = Some l
    /\ Py.format_02x (Byte.to_N b) = String h (String l EmptyString).
Proof.
  destruct b; vm_compute; eexists; eexists; repeat split.
Qed.

Lemma byteshex_cons2 (b b' : byte) (bs : list byte) :
  byteshex (b :: b' :: bs)
  = "0x" ++ Py.format_02x (Byte.to_N b) ++ "," ++ " " ++ byteshex (b' :: bs).
Proof. unfold byteshex. cbn [map Py.join]. string_assoc. Qed.

Lemma read_bytes_token (b : byte) (rest : string) :
  read_bytes ("0x" ++ Py.format_02x (Byte.to_N b) ++ "," ++ rest)
  = b :: read_bytes rest.
Proof. destruct b; reflexivity. Qed.

Lemma read_bytes_byteshex (bs : list byte) (rest : string) :
  read_bytes (byteshex bs ++ rest) = (bs ++ read_bytes rest)%list.
Proof.
  induction bs as [|b bs IH]; [reflexivity|].
  destruct bs as [|b' bs].
  - unfold byteshex. cbn [map Py.join]. rewrite !append_assoc.
    now rewrite read_bytes_token.
  - rewrite byteshex_cons2. rewrite !append_assoc.
    rewrite read_bytes_token. cbn [append read_bytes Ascii.eqb Bool.eqb].
    cbn [app]. f_equal. exact IH.
Qed.

Lemma id_lines_32 (key_id : list byte) :
  List.length key_id = 32 ->
  id_lines key_id
  = unlines [ "          " ++ byteshex (firstn 11 key_id);
              "          " ++ byteshex (firstn 11 (skipn 11 key_id));
              "          " ++ byteshex (skipn 22 key_id) ].
Proof.
  intros Hlen. unfold id_lines. rewrite Hlen.
  change (Py.range 0 32 BYTES_PER_LINE) with [0; 11; 22].
  cbn [fold_left]. unfold id_line, Py.slice, BYTES_PER_LINE.
  change (0 + 11 - 0) with 11. change (11 + 11 - 11) with 11.
  change (22 + 11 - 22) with 11. change (skipn 0 key_id) with key_id.
  assert (Hlast : firstn 11 (skipn 22 key_id) = skipn 22 key_id).
  { apply firstn_all2. rewrite length_skipn. lia. }
  rewrite Hlast. cbn [unlines]. string_assoc.
Qed.

Lemma chunks_32 (key_id : list byte) :
  List.length key_id = 32 ->
  List.length (firstn 11 key_id) = 11
  /\ List.length (firstn 11 (skipn 11 key_id)) = 11
  /\ List.length (skipn 22 key_id) = 10
  /\ (firstn 11 key_id ++ firstn 11 (skipn 11 key_id) ++ skipn 22 key_id)%list
     = key_id.
Proof.
  intros Hlen. repeat split.
  - rewrite length_firstn. lia.
  - rewrite length_firstn, length_skipn. lia.
  - rewrite length_skipn. lia.
  - replace (skipn 22 key_id) with (skipn 11 (skipn 11 key_id))
      by (rewrite skipn_skipn; reflexivity).
    now rewrite !firstn_skipn.
Qed.

Lemma entry_text_32 (key_id : list byte) (desc : string) :
  List.length key_id = 32 ->
  entry_text key_id desc = unlines (entry_lines key_id desc).
Proof.
  intros Hlen. unfold entry_text, entry_lines.
  rewrite (id_lines_32 _ Hlen), Hlen.
  change (Py.str_of_nat 32) with "32".
  cbn [unlines]. string_assoc.
Qed.

Lemma read_bytes_id_lines (key_id : list byte) :
  List.length key_id = 32 -> read_bytes (id_lines key_id) = key_id.
Proof.
  intros Hlen. rewrite (id_lines_32 _ Hlen). cbn [unlines].
  destruct (chunks_32 _ Hlen) as (_ & _ & _ & Hcat).
  rewrite <- Hcat at 4.
  repeat (rewrite ?append_assoc;
          cbn [append read_bytes Ascii.eqb Bool.eqb Py.chr Py.nl];
          rewrite ?read_bytes_byteshex).
  cbn [read_bytes]. now rewrite app_nil_r.
Qed.

(** ** The generated block *)

Lemma length_flat (logss : list (list json)) :
  List.length (List.concat logss) = list_sum (map (@List.length json) logss).
Proof.
  induction logss as [|logs logss IH]; cbn; [reflexivity|].
  now rewrite length_app, IH.
Qed.

Lemma valid_log_renders (entry : json) :
  valid_log entry -> exists text, render_entry entry = Ok text.
Proof.
  intros (desc & key & der & Hlog). eexists. exact (render_entry_log _ _ _ _ Hlog).
Qed.

(** C2: for a document whose [operators] list holds operators that each
    have a [logs] list, [process_json] renders one entry per log, in the
    order of the document, flattened across the operators: the block
    holds, between its head and the closing lines, as many entries as
    there are logs in all, each the six lines of its log, and the count
    written in the comment at the head of the block is that number.  The
    block is produced whenever every log is an entry of the data model. *)
Theorem process_json_entry_count
    (members : list (string * json)) (ops : list json)
    (logss : list (list json)) (lastmod : string) :
  lookup "operators" members = Some (JArr ops) ->
  Forall2 has_logs ops logss ->
  let total := list_sum (map (@List.length json) logss) in
  (Forall valid_log (List.concat logss) ->
   exists block, process_json (JObj members) lastmod = Ok block)
  /\ (forall block,
        process_json (JObj members) lastmod = Ok block ->
        exists texts,
          Forall2 (fun entry text =>
                     exists desc key der,
                       log_entry entry desc key der
                       /\ text = unlines (entry_lines (SHA256.sha256 der) desc))
                  (List.concat logss) texts
          /\ List.length texts = total
          /\ block = block_text lastmod total texts).
Proof.
  intros Hops Hlogs total.
  pose proof (flat_logs_shape _ _ _ Hops Hlogs) as Hflat.
  rewrite process_json_unfold, Hflat. cbn [bind]. split.
  - intros Hvalid.
    destruct (mapM_total render_entry (List.concat logss)) as [texts Htexts].
    + eapply Forall_impl; [|exact Hvalid]. exact valid_log_renders.
    + rewrite Htexts. cbn. eauto.
  - intros block Hblock.
    destruct (mapM render_entry (List.concat logss)) as [texts|] eqn:Htexts;
      [|discriminate].
    cbn in Hblock. injection Hblock as <-.
    exists texts. split.
    + apply mapM_Ok_iff in Htexts.
      eapply Forall2_impl; [|exact Htexts].
      intros entry text Hentry.
      apply render_entry_inv in Hentry as (desc & key & der & Hlog & ->).
      exists desc, key, der. split; [exact Hlog|].
      apply entry_text_32, sha256_length.
    + pose proof (mapM_length _ _ _ Htexts) as Hlen.
      rewrite length_flat in Hlen. fold total in Hlen.
      split; [exact Hlen|]. now rewrite length_flat.
Qed.

Lemma Forall2_split_l {A B : Type} (R : A -> B -> Prop)
    (xs1 : list A) (x : A) (xs2 : list A) (ys : list B) :
  Forall2 R (xs1 ++ x :: xs2) ys ->
  exists ys1 y ys2,
    ys = (ys1 ++ y :: ys2)%list /\ Forall2 R xs1 ys1 /\ R x y /\ Forall2 R xs2 ys2.
Proof.
  intros H. apply Forall2_app_inv_l in H as (ys1 & ys' & H1 & H2 & ->).
  inversion H2 as [|? y ? ys2 Hxy H2']; subst.
  exists ys1, y, ys2. auto.
Qed.

(** C1: in the block [process_json] returns, the entry of every log of the
    document stands at the log's place, and its array holds exactly the
    SHA-256 digest of the base64-decoded [key] of that log: 32 bytes, on
    three lines, which read back as the digest, with the length field
    written as 32 next to it. *)
Theorem process_json_log_id
    (members : list (string * json)) (ops : list json)
    (logss : list (list json)) (lastmod block : string)
    (before : list json) (entry : json) (after : list json) :
  lookup "operators" members = Some (JArr ops) ->
  Forall2 has_logs ops logss ->
  List.concat logss = (before ++ entry :: after)%list ->
  process_json (JObj members) lastmod = Ok block ->
  exists (desc key : string) (der : list byte) (texts_before texts_after : list string),
    log_entry entry desc key der
    /\ let key_id := SHA256.sha256 der in
       List.length key_id = 32
       /\ read_bytes (id_lines key_id) = key_id
       /\ Forall2 (fun e text => render_entry e = Ok text) before texts_before
       /\ Forall2 (fun e text => render_entry e = Ok text) after texts_after
       /\ block = block_text lastmod (List.length (List.concat logss))
                    (texts_before ++ unlines (entry_lines key_id desc) :: texts_after).
Proof.
  intros Hops Hlogs Hsplit Hblock.
  rewrite process_json_unfold, (flat_logs_shape _ _ _ Hops Hlogs) in Hblock.
  cbn [bind] in Hblock.
  destruct (mapM render_entry (List.concat logss)) as [texts|] eqn:Htexts;
    [|discriminate].
  cbn in Hblock. injection Hblock as <-.
  apply mapM_Ok_iff in Htexts. rewrite Hsplit in Htexts.
  apply Forall2_split_l in Htexts
    as (texts_before & text & texts_after & -> & Hbefore & Hentry & Hafter).
  apply render_entry_inv in Hentry as (desc & key & der & Hlog & ->).
  exists desc, key, der, texts_before, texts_after.
  split; [exact Hlog|]. cbn zeta.
  pose proof (sha256_length der) as Hlen.
  split; [exact Hlen|]. split; [now apply read_bytes_id_lines|].
  split; [exact Hbefore|]. split; [exact Hafter|].
  now rewrite (entry_text_32 _ _ Hlen).
Qed.

(** C9: a byte is rendered as [0xHH,] with two lowercase hexadecimal
    digits, the bytes of a line are joined by single spaces, and a line
    takes 11 bytes: the array of a log with a 32-byte ID has exactly three
    lines, of 11, 11 and 10 bytes. *)
Theorem byteshex_layout :
  (forall b : byte,
      exists h l : ascii,
        String.get (N.to_nat (Byte.to_N b / 16)) "0123456789abcdef" = Some h
        /\ String.get (N.to_nat (Byte.to_N b mod 16)) "0123456789abcdef" = Some l
        /\ byteshex [b] = String "0" (String "x" (String h (String l ","))))
  /\ (forall (b b' : byte) (bs : list byte),
         byteshex (b :: b' :: bs) = byteshex [b] ++ " " ++ byteshex (b' :: bs))
  /\ byteshex [] = EmptyString
  /\ BYTES_PER_LINE = 11
  /\ (forall (entry : json) (desc key : string) (der : list byte),
         log_entry entry desc key der ->
         exists line1 line2 line3 : list byte,
           List.length line1 = 11 /\ List.length line2 = 11
           /\ List.length line3 = 10
           /\ (line1 ++ line2 ++ line3)%list = SHA256.sha256 der
           /\ render_entry entry
              = Ok (unlines [ "    { (const guint8[]){";
                              "          " ++ byteshex line1;
                              "          " ++ byteshex line2;
                              "          " ++ byteshex line3;
                              "      },";
                              "      32, " ++ Py.chr Py.dquote ++ escape_c desc
                                ++ Py.chr Py.dquote ++ " }," ])).
Proof.
  split; [|split; [|split; [|split]]].
  - intros b. destruct (format_02x_byte b) as (h & l & Hh & Hl & Hfmt).
    exists h, l. split; [exact Hh|]. split; [exact Hl|].
    unfold byteshex. cbn [map Py.join]. rewrite Hfmt. reflexivity.
  - intros b b' bs. rewrite byteshex_cons2. unfold byteshex at 2.
    cbn [map Py.join]. string_assoc.
  - reflexivity.
  - reflexivity.
  - intros entry desc key der Hlog.
    pose proof (sha256_length der) as Hlen.
    destruct (chunks_32 _ Hlen) as (H1 & H2 & H3 & Hcat).
    exists (firstn 11 (SHA256.sha256 der)),
           (firstn 11 (skipn 11 (SHA256.sha256 der))),
           (skipn 22 (SHA256.sha256 der)).
    repeat (split; [assumption|]).
    rewrite (render_entry_log _ _ _ _ Hlog).
    now rewrite (entry_text_32 _ _ Hlen).
Qed.

Lemma sha256_of_empty : SHA256.sha256 [] = sha256_empty.
Proof. vm_compute. reflexivity. Qed.

(** C8: for the document with one operator holding the one log described
    as [Test Log] whose key is the base64 text of the empty byte string,
    [process_json] returns the block with exactly one entry: the ID is
    SHA-256 of the empty byte sequence, the length is 32, the description
    is [Test Log]; the line [{ NULL, 0, NULL }] and the closing brace
    follow. *)
Theorem process_json_test_log (lastmod : string) :
  Base64.b64decode EmptyString = Ok []
  /\ SHA256.sha256 [] = sha256_empty
  /\ byteshex sha256_empty
     = "0xe3, 0xb0, 0xc4, 0x42, 0x98, 0xfc, 0x1c, 0x14, 0x9a, 0xfb, 0xf4, 0xc8, 0x99, 0x6f, 0xb9, 0x24, 0x27, 0xae, 0x41, 0xe4, 0x64, 0x9b, 0x93, 0x4c, 0xa4, 0x95, 0x99, 0x1b, 0x78, 0x52, 0xb8, 0x55,"
  /\ process_json test_json lastmod
     = Ok (unlines
             [ "/* Generated by tools/make-tls-ct-logids.py";
               " * Last-Modified " ++ lastmod ++ ", 1 entries. */";
               "static const bytes_string ct_logids[] = {";
               "    { (const guint8[]){";
               "          0xe3, 0xb0, 0xc4, 0x42, 0x98, 0xfc, 0x1c, 0x14, 0x9a, 0xfb, 0xf4,";
               "          0xc8, 0x99, 0x6f, 0xb9, 0x24, 0x27, 0xae, 0x41, 0xe4, 0x64, 0x9b,";
               "          0x93, 0x4c, 0xa4, 0x95, 0x99, 0x1b, 0x78, 0x52, 0xb8, 0x55,";
               "      },";
               "      32, " ++ Py.chr Py.dquote ++ "Test Log" ++ Py.chr Py.dquote ++ " },";
               "    { NULL, 0, NULL }";
               "};" ]).
Proof.
  split; [reflexivity|]. split; [exact sha256_of_empty|].
  split; [vm_compute; reflexivity|].
  rewrite process_json_unfold.
  change (flat_logs test_json) with (Ok [test_log]). cbn [bind mapM].
  assert (Hentry : render_entry test_log
                   = Ok (unlines (entry_lines sha256_empty "Test Log"))).
  { vm_compute. reflexivity. }
  rewrite Hentry. cbn [bind]. f_equal.
  unfold block_text, entry_lines, HEADER. cbn [List.length cat unlines].
  change (Py.str_of_nat 1) with "1".
  change (escape_c "Test Log") with "Test Log".
  replace (firstn 11 sha256_empty) with [xe3; xb0; xc4; x42; x98; xfc; x1c; x14; x9a; xfb; xf4] by reflexivity.
  vm_compute (byteshex _).
  string_assoc.
Qed.

(** ** The patcher *)

Lemma cat_readlines (content : string) : cat (readlines content) = content.
Proof.
  induction content as [|c rest IH]; [reflexivity|].
  cbn [readlines]. destruct (Ascii.eqb c Py.nl) eqn:Hc.
  - cbn. now rewrite IH.
  - destruct (readlines rest) as [|line more]; cbn in *; now rewrite <- IH.
Qed.

Lemma header_no_brace : Py.startswith HEADER "}" = false.
Proof. reflexivity. Qed.

Lemma parse_line_header (st : parse_state) :
  parse_line st HEADER
  = ParseState 2 (p_begin st) (p_block st ++ HEADER) (p_end st).
Proof.
  unfold parse_line. rewrite String.eqb_refl. cbn [Nat.eqb].
  now rewrite header_no_brace.
Qed.

Lemma parse_line_other (st : parse_state) (line : string) :
  line <> HEADER ->
  parse_line st line
  = match stage st with
    | 1 => ParseState 1 (p_begin st ++ line) (p_block st) (p_end st)
    | 2 => ParseState (if Py.startswith line "}" then 3 else 2)
             (p_begin st) (p_block st ++ line) (p_end st)
    | 3 => ParseState 3 (p_begin st) (p_block st) (p_end st ++ line)
    | n => ParseState n (p_begin st) (p_block st) (p_end st)
    end.
Proof.
  intros Hne. unfold parse_line.
  apply String.eqb_neq in Hne. rewrite Hne.
  destruct (stage st) as [|[|[|[|n]]]]; cbn [Nat.eqb]; try reflexivity.
  destruct (Py.startswith line "}"); reflexivity.
Qed.

Lemma fold_stage1 (lines : list string) (b k e : string) :
  ~ In HEADER lines ->
  fold_left parse_line lines (ParseState 1 b k e)
  = ParseState 1 (b ++ cat lines) k e.
Proof.
  revert b. induction lines as [|line lines IH]; intros b Hno; cbn [fold_left cat].
  - now rewrite append_nil_r.
  - rewrite parse_line_other by (intros ->; apply Hno; now left).
    cbn [stage p_begin p_block p_end]. rewrite IH by (intros H; apply Hno; now right).
    now rewrite append_assoc.
Qed.

Lemma fold_stage2 (lines : list string) (b k e : string) :
  Forall (fun line => Py.startswith line "}" = false) lines ->
  fold_left parse_line lines (ParseState 2 b k e)
  = ParseState 2 b (k ++ cat lines) e.
Proof.
  intros Hno. revert k.
  induction Hno as [|line lines Hline _ IH]; intros k; cbn [fold_left cat].
  - now rewrite append_nil_r.
  - destruct (String.eqb_spec line HEADER) as [->|Hne].
    + rewrite parse_line_header. cbn [p_begin p_block p_end].
      rewrite IH. now rewrite append_assoc.
    + rewrite parse_line_other by assumption.
      cbn [stage p_begin p_block p_end]. rewrite Hline, IH.
      now rewrite append_assoc.
Qed.

Lemma fold_stage3 (lines : list string) (b k e : string) :
  ~ In HEADER lines ->
  fold_left parse_line lines (ParseState 3 b k e)
  = ParseState 3 b k (e ++ cat lines).
Proof.
  revert e. induction lines as [|line lines IH]; intros e Hno; cbn [fold_left cat].
  - now rewrite append_nil_r.
  - rewrite parse_line_other by (intros ->; apply Hno; now left).
    cbn [stage p_begin p_block p_end]. rewrite IH by (intros H; apply Hno; now right).
    now rewrite append_assoc.
Qed.

(** Where the split is the one the docstring of [parse_source] promises:
    the header line occurs once before the closing line of the block and
    never after it. *)
Lemma parse_lines_one_block (before mid : list string) (close : string)
    (after : list string) :
  ~ In HEADER before ->
  Forall (fun line => Py.startswith line "}" = false) mid ->
  Py.startswith close "}" = true ->
  ~ In HEADER after ->
  parse_lines (before ++ HEADER :: mid ++ close :: after)
  = Ok (cat before, HEADER ++ cat mid ++ close, cat after).
Proof.
  intros Hbefore Hmid Hclose Hafter. unfold parse_lines.
  rewrite fold_left_app, (fold_stage1 _ _ _ _ Hbefore).
  cbn [fold_left]. rewrite parse_line_header.
  cbn [p_begin p_block p_end].
  rewrite fold_left_app, (fold_stage2 _ _ _ _ Hmid). cbn [fold_left].
  rewrite parse_line_other.
  2:{ intros ->. rewrite header_no_brace in Hclose. discriminate. }
  cbn [stage p_begin p_block p_end]. rewrite Hclose.
  rewrite (fold_stage3 _ _ _ _ Hafter).
  cbn [stage p_begin p_block p_end Nat.eqb negb]. now rewrite append_assoc.
Qed.

(** C4: [parse_source] raises, and returns no split, on a file without
    the header line (it is still in stage 1 at the end) and on a file in
    which no line after a header line starts with a closing brace (it is
    in stage 2 at the end). *)
Theorem parse_source_malformed (w : world) (content : string) :
  source_file w = Some content ->
  (~ In HEADER (readlines content) ->
   parse_source w = Raise (RuntimeError "Could not parse file (in stage 1)"))
  /\ (forall before after : list string,
         readlines content = (before ++ HEADER :: after)%list ->
         Forall (fun line => Py.startswith line "}" = false) after ->
         parse_source w = Raise (RuntimeError "Could not parse file (in stage 2)")).
Proof.
  intros Hfile. unfold parse_source. rewrite Hfile. split.
  - intros Hno. unfold parse_lines. rewrite (fold_stage1 _ _ _ _ Hno). reflexivity.
  - intros before after -> Hafter. unfold parse_lines.
    rewrite fold_left_app. cbn [fold_left]. rewrite parse_line_header.
    rewrite (fold_stage2 _ _ _ _ Hafter). reflexivity.
Qed.

(** C5: with the update flag, when the block [process_json] generates is
    the block [parse_source] finds in the source file, [main] does not
    open the file for writing and writes nothing: the file is as it was,
    and the one thing the run does is print that the file is up to date. *)
Theorem main_up_to_date (r : response) (obj : json) (lastmod : string)
    (w : world) (begin code end_ : string) :
  r_json r = Ok obj ->
  header_lookup "Last-Modified" (r_headers r) = Ok lastmod ->
  process_json obj lastmod = Ok code ->
  parse_source w = Ok (begin, code, end_) ->
  main true (Ok r) w
  = (World (source_file w) (effects w ++ [PrintLine "File is up-to-date"]), Ok tt).
Proof.
  intros Hjson Hmod Hcode Hparse. unfold main, main_io. cbn [bind].
  rewrite Hjson. cbn [bind]. rewrite Hmod. cbn [bind]. rewrite Hcode, Hparse.
  now rewrite String.eqb_refl.
Qed.

Lemma parse_line_invariant (st : parse_state) (line : string) :
  block_invariant st -> block_invariant (parse_line st line).
Proof.
  unfold block_invariant. intros Hinv.
  destruct (String.eqb_spec line HEADER) as [->|Hne].
  - rewrite parse_line_header. cbn [stage p_block].
    destruct (stage st) as [|[|[|[|n]]]]; try contradiction.
    + rewrite Hinv. now exists EmptyString.
    + destruct Hinv as [text ->]. exists (text ++ HEADER). now rewrite append_assoc.
    + destruct Hinv as (text & close & -> & _).
      exists (text ++ close ++ HEADER). now rewrite !append_assoc.
  - rewrite parse_line_other by assumption.
    destruct (stage st) as [|[|[|[|n]]]]; try contradiction; cbn [stage p_block].
    + assumption.
    + destruct Hinv as [text ->].
      destruct (Py.startswith line "}") eqn:Hline.
      * exists text, line. now rewrite append_assoc.
      * exists (text ++ line). now rewrite append_assoc.
    + assumption.
Qed.

Lemma fold_parse_invariant (lines : list string) (st : parse_state) :
  block_invariant st -> block_invariant (fold_left parse_line lines st).
Proof.
  revert st. induction lines as [|line lines IH]; intros st Hinv; cbn [fold_left].
  - exact Hinv.
  - apply IH. now apply parse_line_invariant.
Qed.

(** Whenever [parse_source] returns, the block starts with the header
    line and ends with a line that starts with a closing brace. *)
Lemma parse_lines_block_ends (lines : list string) (begin block end_ : string) :
  parse_lines lines = Ok (begin, block, end_) ->
  exists text close,
    block = HEADER ++ text ++ close /\ Py.startswith close "}" = true.
Proof.
  unfold parse_lines.
  pose proof (fold_parse_invariant lines
                (ParseState 1 EmptyString EmptyString EmptyString)
                eq_refl) as Hinv.
  unfold block_invariant in Hinv.
  destruct (fold_left parse_line lines _) as [n b k e].
  cbn [stage p_begin p_block p_end] in *.
  destruct n as [|[|[|[|n]]]]; cbn [Nat.eqb negb]; try discriminate.
  intros H. injection H as <- <- <-. exact Hinv.
Qed.

Lemma fold_written (texts : list string) (raw : string) :
  fold_left
    (fun raw op =>
       match op with
       | OpenForWriting => EmptyString
       | WriteText s => raw ++ s
       | PrintLine _ => raw
       end)
    (map WriteText texts) raw
  = raw ++ cat texts.
Proof.
  revert raw. induction texts as [|text texts IH]; intros raw; cbn [map fold_left cat].
  - now rewrite append_nil_r.
  - now rewrite IH, append_assoc.
Qed.

(** What the file holds after it was opened for writing and texts were
    written to it. *)
Lemma written_since_open (done : list effect) (texts : list string) :
  written (done ++ OpenForWriting :: map WriteText texts) = cat texts.
Proof.
  unfold written. rewrite fold_left_app. cbn [fold_left].
  now rewrite fold_written.
Qed.

Lemma writes_done (w : world) (texts : list string) :
  fold_left (fun w s => write s w) texts (open_w w)
  = World (Some (universal_newlines (cat texts)))
          (effects w ++ OpenForWriting :: map WriteText texts).
Proof.
  induction texts as [|text texts IH] using rev_ind.
  - reflexivity.
  - rewrite fold_left_app, IH. cbn [fold_left]. unfold write. cbn [effects].
    rewrite <- app_assoc. cbn [app].
    replace (map WriteText texts ++ [WriteText text])%list
      with (map WriteText (texts ++ [text])) by now rewrite map_app.
    now rewrite written_since_open.
Qed.

(** The update path when the block differs and nothing fails: the file is
    opened for writing and the three parts are written one after the
    other. *)
Lemma main_rewrites (r : response) (obj : json) (lastmod : string)
    (w : world) (begin block end_ code : string) :
  r_json r = Ok obj ->
  header_lookup "Last-Modified" (r_headers r) = Ok lastmod ->
  process_json obj lastmod = Ok code ->
  parse_source w = Ok (begin, block, end_) ->
  block <> code ->
  main true (Ok r) w
  = (World (Some (universal_newlines (begin ++ code ++ end_)))
           (effects w ++ [OpenForWriting; WriteText begin; WriteText code;
                          WriteText end_;
                          PrintLine "Updated epan/dissectors/packet-tls-utils.c"]),
     Ok tt).
Proof.
  intros Hjson Hmod Hcode Hparse Hdiff. unfold main, main_io. cbn [bind].
  rewrite Hjson. cbn [bind]. rewrite Hmod. cbn [bind]. rewrite Hcode, Hparse.
  apply String.eqb_neq in Hdiff. rewrite Hdiff.
  unfold attempt, no_faults. cbn [and_then perform].
  change (write end_ (write code (write begin (open_w w))))
    with (fold_left (fun w s => write s w) [begin; code; end_] (open_w w)).
  rewrite writes_done. unfold print. cbn [source_file effects map cat].
  rewrite <- app_assoc. cbn [app]. now rewrite append_nil_r.
Qed.

(** ** The header line after the block

    [parse_line] puts the loop back into stage 2 at every header line,
    also after the block has been closed: the lines that follow land in
    the block again and the three parts no longer are the file. *)

(** C10 (fails on the code): on the file [two_headers], whose header line
    comes back after the block, [parse_source] returns, and the three
    parts put end to end are not the file: the line between the two
    header lines has moved behind the second closing brace. *)
Theorem parse_source_parts_reordered :
  parse_source (World (Some two_headers) [])
  = Ok (EmptyString,
        HEADER ++ unlines ["};"] ++ HEADER ++ unlines ["}"],
        unlines ["int x;"])
  /\ EmptyString ++ (HEADER ++ unlines ["};"] ++ HEADER ++ unlines ["}"])
       ++ unlines ["int x;"] <> two_headers.
Proof. split; [reflexivity | discriminate]. Qed.

(** C6 (fails on the code): on the file [two_headers] the first header
    line is the first line and the first line after it that starts with a
    closing brace is the second line, yet the block [parse_source]
    returns is not these two lines, and the text it returns as the end is
    not what follows them in the file. *)
Theorem parse_source_block_not_first_region :
  readlines two_headers
  = [HEADER; unlines ["};"]; unlines ["int x;"]; HEADER; unlines ["}"]]
  /\ exists begin block end_,
       parse_source (World (Some two_headers) []) = Ok (begin, block, end_)
       /\ block <> HEADER ++ unlines ["};"]
       /\ end_ <> unlines ["int x;"] ++ HEADER ++ unlines ["}"].
Proof.
  split; [reflexivity|].
  do 3 eexists. split; [reflexivity|]. split; discriminate.
Qed.

(** C3 (fails on the code): the update of the file [two_headers] writes
    the new block followed by the one line [int x;]: the second header
    line and the closing brace after it, which follow the block in the
    file, are gone. *)
Theorem main_update_drops_text :
  fst (main true (Ok test_response) (World (Some two_headers) []))
  = World (Some (test_block ++ unlines ["int x;"]))
          [OpenForWriting; WriteText EmptyString; WriteText test_block;
           WriteText (unlines ["int x;"]);
           PrintLine "Updated epan/dissectors/packet-tls-utils.c"]
  /\ test_block ++ unlines ["int x;"]
     <> EmptyString ++ test_block
        ++ (unlines ["int x;"] ++ HEADER ++ unlines ["}"]).
Proof.
  split; [vm_compute; reflexivity|].
  vm_compute. discriminate.
Qed.

(** The split and the rewrite on a file with one block: the three parts
    are the file, and the update puts the new block between the same
    first and last part. *)
Lemma parse_source_one_block (w : world) (content : string)
    (before mid : list string) (close : string) (after : list string) :
  source_file w = Some content ->
  readlines content = (before ++ HEADER :: mid ++ close :: after)%list ->
  ~ In HEADER before ->
  Forall (fun line => Py.startswith line "}" = false) mid ->
  Py.startswith close "}" = true ->
  ~ In HEADER after ->
  parse_source w = Ok (cat before, HEADER ++ cat mid ++ close, cat after)
  /\ cat before ++ (HEADER ++ cat mid ++ close) ++ cat after = content.
Proof.
  intros Hfile Hlines Hbefore Hmid Hclose Hafter. split.
  - unfold parse_source. rewrite Hfile, Hlines.
    now apply parse_lines_one_block.
  - rewrite <- (cat_readlines content), Hlines.
    rewrite cat_app. cbn [cat]. rewrite cat_app. cbn [cat].
    now rewrite !append_assoc.
Qed.

(** ** The statements at concrete inputs *)

Lemma test_log_entry : log_entry test_log "Test Log" EmptyString [].
Proof. exists [("description", JStr "Test Log"); ("key", JStr EmptyString)].
  repeat split. Defined.

Lemma test_operator_has_logs :
  Forall2 has_logs [JObj [("logs", JArr [test_log])]] [[test_log]].
Proof.
  constructor; [|constructor].
  exists [("logs", JArr [test_log])]. split; reflexivity.
Defined.

Lemma test_block_generated :
  process_json test_json "Thu, 01 Jan 1970 00:00:00 GMT" = Ok test_block.
Proof. vm_compute. reflexivity. Defined.

Lemma three_operators_have_logs :
  Forall2 has_logs
    [JObj [("name", JStr "A"); ("logs", JArr [test_log])];
     JObj [("logs", JArr [])];
     JObj [("logs", JArr [second_log; third_log])]]
    [[test_log]; []; [second_log; third_log]].
Proof.
  repeat (apply Forall2_cons; [eexists; split; reflexivity|]).
  apply Forall2_nil.
Defined.

Lemma three_logs_valid : Forall valid_log [test_log; second_log; third_log].
Proof.
  repeat (apply Forall_cons;
          [do 3 eexists; eexists; repeat split; reflexivity|]).
  apply Forall_nil.
Defined.

Lemma three_operators_block_generated :
  process_json three_operators_json "Thu, 01 Jan 1970 00:00:00 GMT"
  = Ok three_operators_block.
Proof. vm_compute. reflexivity. Defined.

Lemma process_json_entry_count_witness :
  (exists block,
      process_json three_operators_json "Thu, 01 Jan 1970 00:00:00 GMT"
      = Ok block)
  /\ exists texts,
       Forall2 (fun entry text =>
                  exists desc key der,
                    log_entry entry desc key der
                    /\ text = unlines (entry_lines (SHA256.sha256 der) desc))
               [test_log; second_log; third_log] texts
       /\ List.length texts = 3
       /\ three_operators_block
          = block_text "Thu, 01 Jan 1970 00:00:00 GMT" 3 texts.
Proof.
  destruct (process_json_entry_count
              [("operators",
                JArr [JObj [("name", JStr "A"); ("logs", JArr [test_log])];
                      JObj [("logs", JArr [])];
                      JObj [("logs", JArr [second_log; third_log])]])]
              [JObj [("name", JStr "A"); ("logs", JArr [test_log])];
               JObj [("logs", JArr [])];
               JObj [("logs", JArr [second_log; third_log])]]
              [[test_log]; []; [second_log; third_log]]
              "Thu, 01 Jan 1970 00:00:00 GMT" eq_refl three_operators_have_logs)
    as [Hreturns Hcount].
  split.
  - apply Hreturns. exact three_logs_valid.
  - apply Hcount. exact three_operators_block_generated.
Defined.

Lemma process_json_log_id_witness :
  exists (desc key : string) (der : list byte) (texts_before texts_after : list string),
    log_entry test_log desc key der
    /\ let key_id := SHA256.sha256 der in
       List.length key_id = 32
       /\ read_bytes (id_lines key_id) = key_id
       /\ Forall2 (fun e text => render_entry e = Ok text) [] texts_before
       /\ Forall2 (fun e text => render_entry e = Ok text) [] texts_after
       /\ test_block
          = block_text "Thu, 01 Jan 1970 00:00:00 GMT" 1
              (texts_before ++ unlines (entry_lines key_id desc) :: texts_after).
Proof.
  exact (process_json_log_id
           [("operators", JArr [JObj [("logs", JArr [test_log])]])]
           [JObj [("logs", JArr [test_log])]] [[test_log]]
           "Thu, 01 Jan 1970 00:00:00 GMT" test_block [] test_log []
           eq_refl test_operator_has_logs eq_refl test_block_generated).
Defined.

Lemma byteshex_layout_witness :
  exists line1 line2 line3 : list byte,
    List.length line1 = 11 /\ List.length line2 = 11
    /\ List.length line3 = 10
    /\ (line1 ++ line2 ++ line3)%list = SHA256.sha256 []
    /\ render_entry test_log
       = Ok (unlines [ "    { (const guint8[]){";
                       "          " ++ byteshex line1;
                       "          " ++ byteshex line2;
                       "          " ++ byteshex line3;
                       "      },";
                       "      32, " ++ Py.chr Py.dquote ++ escape_c "Test Log"
                         ++ Py.chr Py.dquote ++ " }," ]).
Proof.
  exact (proj2 (proj2 (proj2 (proj2 byteshex_layout)))
           test_log "Test Log" EmptyString [] test_log_entry).
Defined.

Lemma escape_c_rule_and_roundtrip_witness : escape_c "Test Log" = "Test Log".
Proof.
  apply (proj2 (proj2 (escape_c_rule_and_roundtrip "Test Log"))); reflexivity.
Defined.

Lemma parse_source_malformed_witness :
  parse_source (World (Some (unlines ["int x;"; "}"])) [])
  = Raise (RuntimeError "Could not parse file (in stage 1)")
  /\ parse_source (World (Some (unlines ["}"] ++ HEADER ++ unlines ["int x;"])) [])
     = Raise (RuntimeError "Could not parse file (in stage 2)").
Proof.
  split.
  - apply (proj1 (parse_source_malformed
                    (World (Some (unlines ["int x;"; "}"])) [])
                    (unlines ["int x;"; "}"]) eq_refl)).
    vm_compute. intros [H|[H|[]]]; discriminate.
  - apply (proj2 (parse_source_malformed
                    (World (Some (unlines ["}"] ++ HEADER ++ unlines ["int x;"])) [])
                    (unlines ["}"] ++ HEADER ++ unlines ["int x;"]) eq_refl)
             [unlines ["}"]] [unlines ["int x;"]]).
    + reflexivity.
    + constructor; [reflexivity | constructor].
Defined.

Lemma patched_file_parses :
  parse_source (World (Some patched_file) [])
  = Ok (unlines ["#include <glib.h>"], test_block, unlines ["int x;"]).
Proof. vm_compute. reflexivity. Defined.

Lemma main_up_to_date_witness :
  main true (Ok test_response) (World (Some patched_file) [])
  = (World (Some patched_file) [PrintLine "File is up-to-date"], Ok tt).
Proof.
  exact (main_up_to_date test_response test_json
           "Thu, 01 Jan 1970 00:00:00 GMT" (World (Some patched_file) [])
           (unlines ["#include <glib.h>"]) test_block (unlines ["int x;"])
           eq_refl eq_refl test_block_generated patched_file_parses).
Defined.

(** * Further properties *)

(** ** When [process_json] returns and when it raises *)

Lemma mapM_first_error {A B : Type} (f : A -> result B)
    (before : list A) (a : A) (after : list A) (e : exn) :
  Forall (fun x => exists b, f x = Ok b) before ->
  f a = Raise e ->
  mapM f (before ++ a :: after) = Raise e.
Proof.
  intros Hbefore Ha. induction Hbefore as [|x before [b Hx] _ IH]; cbn.
  - now rewrite Ha.
  - now rewrite Hx, IH.
Qed.

Lemma render_entry_valid (entry : json) :
  (exists text, render_entry entry = Ok text) <-> valid_log entry.
Proof.
  split.
  - intros [text H]. apply render_entry_inv in H as (desc & key & der & Hlog & _).
    now exists desc, key, der.
  - apply valid_log_renders.
Qed.

(** For a document of the expected shape, [process_json] returns a block
    exactly when every log is an object with a string [description] and a
    string [key] that [b64decode] accepts. *)
Theorem process_json_returns_iff
    (members : list (string * json)) (ops : list json)
    (logss : list (list json)) (lastmod : string) :
  lookup "operators" members = Some (JArr ops) ->
  Forall2 has_logs ops logss ->
  (exists block, process_json (JObj members) lastmod = Ok block)
  <-> Forall valid_log (List.concat logss).
Proof.
  intros Hops Hlogs.
  rewrite process_json_unfold, (flat_logs_shape _ _ _ Hops Hlogs). cbn [bind].
  split.
  - intros [block Hblock].
    destruct (mapM render_entry (List.concat logss)) as [texts|] eqn:Htexts;
      [|discriminate].
    apply mapM_Ok_iff in Htexts. clear Hblock.
    induction Htexts as [|entry text logs texts Hentry _ IH]; constructor.
    + apply render_entry_valid. now exists text.
    + exact IH.
  - intros Hvalid.
    destruct (mapM_total render_entry (List.concat logss)) as [texts Htexts].
    + eapply Forall_impl; [|exact Hvalid]. intros e He. now apply render_entry_valid.
    + rewrite Htexts. cbn. eauto.
Qed.

(** The first log that cannot be rendered decides the exception of
    [process_json]: the logs after it are not looked at. *)
Theorem process_json_first_error
    (members : list (string * json)) (ops : list json)
    (logss : list (list json)) (lastmod : string)
    (before : list json) (entry : json) (after : list json) (e : exn) :
  lookup "operators" members = Some (JArr ops) ->
  Forall2 has_logs ops logss ->
  List.concat logss = (before ++ entry :: after)%list ->
  Forall valid_log before ->
  render_entry entry = Raise e ->
  process_json (JObj members) lastmod = Raise e.
Proof.
  intros Hops Hlogs Hsplit Hbefore Hentry.
  rewrite process_json_unfold, (flat_logs_shape _ _ _ Hops Hlogs). cbn [bind].
  rewrite Hsplit, (mapM_first_error render_entry before entry after e).
  - reflexivity.
  - eapply Forall_impl; [|exact Hbefore]. intros x Hx. now apply render_entry_valid.
  - exact Hentry.
Qed.

(** The block depends on the logs in their flattened order only: how they
    are spread over the operators makes no difference. *)
Theorem process_json_grouping
    (members1 members2 : list (string * json)) (ops1 ops2 : list json)
    (logss1 logss2 : list (list json)) (lastmod : string) :
  lookup "operators" members1 = Some (JArr ops1) ->
  Forall2 has_logs ops1 logss1 ->
  lookup "operators" members2 = Some (JArr ops2) ->
  Forall2 has_logs ops2 logss2 ->
  List.concat logss1 = List.concat logss2 ->
  process_json (JObj members1) lastmod = process_json (JObj members2) lastmod.
Proof.
  intros Hops1 Hlogs1 Hops2 Hlogs2 Hsame.
  rewrite !process_json_unfold.
  rewrite (flat_logs_shape _ _ _ Hops1 Hlogs1), (flat_logs_shape _ _ _ Hops2 Hlogs2).
  now rewrite Hsame.
Qed.

(** A document without [operators] raises [KeyError]; so does an operator
    without [logs], and that before any log is rendered: the logs of the
    operators in front of it may be anything. *)
Theorem process_json_missing_member
    (members : list (string * json)) (lastmod : string) :
  (lookup "operators" members = None ->
   process_json (JObj members) lastmod = Raise (KeyError "operators"))
  /\ (forall (ops_before : list json) (op_members : list (string * json))
             (ops_after : list json),
         lookup "operators" members
         = Some (JArr (ops_before ++ JObj op_members :: ops_after)) ->
         Forall has_logs_member ops_before ->
         lookup "logs" op_members = None ->
         process_json (JObj members) lastmod = Raise (KeyError "logs")).
Proof.
  split.
  - intros Hnone. unfold process_json, getitem. now rewrite Hnone.
  - intros ops_before op_members ops_after Hops Hbefore Hnone.
    unfold process_json. unfold getitem at 1. rewrite Hops. cbn [bind iter].
    rewrite (mapM_first_error (fun op => getitem op "logs")
               ops_before (JObj op_members) ops_after (KeyError "logs")).
    + reflexivity.
    + eapply Forall_impl; [|exact Hbefore].
      intros op (m & v & -> & Hm). exists v. cbn. now rewrite Hm.
    + cbn. now rewrite Hnone.
Qed.

(** ** The array of a key ID of any length *)

Lemma string_length_app (a b : string) :
  String.length (a ++ b) = String.length a + String.length b.
Proof. induction a as [|c a IH]; cbn; [reflexivity | now rewrite IH]. Qed.

Lemma read_bytes_lines_from (key_id : list byte) (fuel offset : nat) :
  List.length key_id - offset <= fuel ->
  read_bytes
    (fold_left (id_line key_id)
       (Py.range_from fuel offset (List.length key_id) BYTES_PER_LINE)
       EmptyString)
  = skipn offset key_id.
Proof.
  revert offset. induction fuel as [|fuel IH]; intros offset Hfuel.
  - cbn. symmetry. apply skipn_all2. lia.
  - cbn [Py.range_from]. destruct (offset <? List.length key_id)%nat eqn:Hlt.
    + cbn [fold_left]. rewrite fold_id_line.
      unfold id_line at 1. unfold Py.slice, BYTES_PER_LINE.
      replace (offset + 11 - offset) with 11 by lia.
      cbn [append read_bytes Ascii.eqb Bool.eqb].
      rewrite !append_assoc, read_bytes_byteshex.
      cbn [append read_bytes Ascii.eqb Bool.eqb Py.chr Py.nl].
      fold BYTES_PER_LINE. rewrite IH by (unfold BYTES_PER_LINE; lia).
      unfold BYTES_PER_LINE.
      replace (offset + 11) with (11 + offset) by lia.
      rewrite <- skipn_skipn. apply firstn_skipn.
    + cbn. symmetry. apply skipn_all2. apply Nat.ltb_ge in Hlt. lia.
Qed.

(** Whatever the length of the key ID, the lines the inner loop of
    [process_json] writes hold its bytes, all of them, once and in order:
    read back, the array is the key ID. *)
Theorem id_lines_read_back (key_id : list byte) :
  read_bytes (id_lines key_id) = key_id.
Proof.
  unfold id_lines, Py.range.
  now rewrite read_bytes_lines_from by lia.
Qed.

Lemma format_02x_length (b : byte) :
  String.length (Py.format_02x (Byte.to_N b)) = 2.
Proof.
  destruct (format_02x_byte b) as (h & l & _ & _ & ->). reflexivity.
Qed.

Lemma byteshex_length (bs : list byte) :
  String.length (byteshex bs) = 6 * List.length bs - 1.
Proof.
  induction bs as [|b bs IH]; [reflexivity|].
  destruct bs as [|b' bs].
  - unfold byteshex. cbn [map Py.join].
    rewrite !string_length_app, format_02x_length. reflexivity.
  - rewrite byteshex_cons2. rewrite !string_length_app, format_02x_length, IH.
    cbn [String.length List.length]. lia.
Qed.

(** A line of the array is never longer than 75 characters and its
    newline: ten of indentation and at most [BYTES_PER_LINE] bytes of five
    characters, with single spaces between them. *)
Theorem id_line_width (key_id : list byte) (lines : string) (offset : nat) :
  String.length (id_line key_id lines offset) <= String.length lines + 76.
Proof.
  unfold id_line. rewrite !string_length_app, byteshex_length.
  assert (Hchunk : List.length
                     (Py.slice key_id offset (offset + BYTES_PER_LINE)) <= 11).
  { unfold Py.slice, BYTES_PER_LINE.
    replace (offset + 11 - offset) with 11 by lia.
    apply firstn_le_length. }
  cbn [String.length Py.chr]. lia.
Qed.

(** ** More on escaping *)

(** Escaping goes piece by piece: the escaped form of a text put together
    from two parts is the two escaped parts put together. *)
Theorem escape_c_app (s t : string) :
  escape_c (s ++ t) = escape_c s ++ escape_c t.
Proof. rewrite !escape_c_expand. apply expand_app. Qed.

Lemma literal_body_escape_char (c : ascii) (rest : string) :
  literal_body (escape_char c ++ rest) = literal_body rest.
Proof.
  unfold escape_char.
  destruct (Ascii.eqb c Py.backslash) eqn:Hb; [reflexivity|].
  destruct (Ascii.eqb c Py.dquote) eqn:Hq; [reflexivity|].
  cbn [Py.chr append literal_body]. now rewrite Hb, Hq.
Qed.

(** An escaped description never closes the C string literal it is put
    in: it has no double quote without a backslash in front, and no
    backslash left over at its end. *)
Theorem escape_c_literal_body (s : string) :
  literal_body (escape_c s) = true.
Proof.
  rewrite escape_c_expand.
  induction s as [|c s IH]; [reflexivity|].
  cbn [expand]. now rewrite literal_body_escape_char.
Qed.

(** ** The lines of a text *)

Lemma contains_app (c : ascii) (s t : string) :
  contains c (s ++ t) = contains c s || contains c t.
Proof.
  induction s as [|d s IH]; cbn; [reflexivity|].
  now rewrite IH, orb_assoc.
Qed.

Lemma readlines_terminated (line rest : string) :
  terminated line -> readlines (line ++ rest) = line :: readlines rest.
Proof.
  intros (body & -> & Hbody). rewrite append_assoc.
  induction body as [|c body IH].
  - reflexivity.
  - cbn [contains] in Hbody. apply orb_false_iff in Hbody as [Hc Hbody].
    cbn [append readlines]. rewrite Hc, (IH Hbody). reflexivity.
Qed.

Lemma readlines_cat (lines : list string) (rest : string) :
  Forall terminated lines ->
  readlines (cat lines ++ rest) = (lines ++ readlines rest)%list.
Proof.
  induction 1 as [|line lines Hline _ IH]; cbn [cat app append].
  - reflexivity.
  - rewrite append_assoc, (readlines_terminated _ _ Hline). now rewrite IH.
Qed.

Lemma terminated_cons (c : ascii) (line : string) :
  Ascii.eqb c Py.nl = false -> terminated line -> terminated (String c line).
Proof.
  intros Hc (body & -> & Hbody). exists (String c body).
  split; [reflexivity|]. cbn [contains]. now rewrite Hc.
Qed.

Lemma readlines_front_terminated (content : string)
    (front : list string) (line : string) (back : list string) :
  readlines content = (front ++ line :: back)%list -> Forall terminated front.
Proof.
  revert front. induction content as [|c rest IH]; intros front Hsplit.
  - destruct front; discriminate.
  - cbn [readlines] in Hsplit. destruct (Ascii.eqb c Py.nl) eqn:Hc.
    + destruct front as [|l front]; [constructor|].
      injection Hsplit as <- Hrest. constructor.
      * apply Ascii.eqb_eq in Hc. subst c. now exists EmptyString.
      * now apply IH.
    + destruct (readlines rest) as [|l more] eqn:Hlines.
      * destruct front as [|l front]; [constructor|].
        injection Hsplit as _ Hrest. destruct front; discriminate.
      * destruct front as [|l' front]; [constructor|].
        injection Hsplit as <- Hmore.
        assert (Hall : Forall terminated (l :: front)).
        { apply IH. cbn. now rewrite Hmore. }
        inversion Hall as [|? ? Hl Hfront]; subst.
        constructor; [now apply terminated_cons | exact Hfront].
Qed.

Lemma readlines_back (content : string) (front back : list string) :
  readlines content = (front ++ back)%list -> readlines (cat back) = back.
Proof.
  revert front. induction content as [|c rest IH]; intros front Hsplit.
  - destruct front, back; try discriminate. reflexivity.
  - destruct front as [|l front].
    + cbn [app] in Hsplit. rewrite <- Hsplit. now rewrite cat_readlines.
    + cbn [readlines] in Hsplit. destruct (Ascii.eqb c Py.nl) eqn:Hc.
      * injection Hsplit as _ Hrest. now apply (IH front).
      * destruct (readlines rest) as [|l' more] eqn:Hlines.
        -- injection Hsplit as _ Hrest. destruct front, back; try discriminate.
           reflexivity.
        -- injection Hsplit as _ Hmore. apply (IH (l' :: front)).
           cbn. now rewrite Hmore.
Qed.


(** ** Which files [parse_source] accepts *)

Lemma first_occurrence (x : string) (lines : list string) :
  In x lines ->
  exists before rest, lines = (before ++ x :: rest)%list /\ ~ In x before.
Proof.
  induction lines as [|l lines IH]; [intros []|].
  intros Hin. destruct (string_dec l x) as [->|Hne].
  - exists [], lines. split; [reflexivity | intros []].
  - destruct Hin as [Heq|Hin]; [contradiction|].
    destruct (IH Hin) as (before & rest & -> & Hno).
    exists (l :: before), rest. split; [reflexivity|].
    intros [H|H]; [contradiction | now apply Hno].
Qed.

Lemma first_brace_line (lines : list string) :
  Exists brace_line lines ->
  exists mid close after,
    lines = (mid ++ close :: after)%list
    /\ Forall (fun line => Py.startswith line "}" = false) mid
    /\ brace_line close.
Proof.
  induction lines as [|l lines IH]; intros Hex.
  - inversion Hex.
  - destruct (Py.startswith l "}") eqn:Hl.
    + exists [], l, lines. split; [reflexivity|]. split; [constructor | exact Hl].
    + inversion Hex as [? ? Hb|? ? Hrest]; subst.
      * unfold brace_line in Hb. congruence.
      * destruct (IH Hrest) as (mid & close & after & -> & Hmid & Hclose).
        exists (l :: mid), close, after.
        split; [reflexivity|]. split; [now constructor | exact Hclose].
Qed.

Lemma brace_line_not_header (line : string) : brace_line line -> line <> HEADER.
Proof.
  intros Hb ->. unfold brace_line in Hb. rewrite header_no_brace in Hb.
  discriminate.
Qed.

Lemma fold_stage_spec (lines : list string) :
  stage_spec (stage (fold_left parse_line lines parse_init)) lines.
Proof.
  induction lines as [|line lines IH] using rev_ind.
  - cbn. intros [].
  - rewrite fold_left_app. cbn [fold_left].
    set (st := fold_left parse_line lines parse_init) in *.
    destruct (String.eqb_spec line HEADER) as [->|Hne].
    + rewrite parse_line_header. cbn [stage stage_spec].
      exists lines, []. split; [reflexivity|]. split; [intros [] | constructor].
    + rewrite parse_line_other by assumption.
      destruct (stage st) as [|[|[|[|n]]]]; cbn [stage_spec] in IH;
        try contradiction; cbn [stage].
      * cbn [stage_spec]. intros Hin. apply in_app_or in Hin as [Hin|[Hin|[]]].
        -- now apply IH.
        -- now apply Hne.
      * destruct IH as (front & rest & -> & Hno & Hrest).
        assert (Hno' : ~ In HEADER (rest ++ [line])).
        { intros Hin. apply in_app_or in Hin as [Hin|[Hin|[]]];
            [now apply Hno | now apply Hne]. }
        destruct (Py.startswith line "}") eqn:Hline; cbn [stage_spec];
          exists front, (rest ++ [line])%list;
          (split; [now rewrite <- app_assoc|]); (split; [exact Hno'|]).
        -- apply Exists_app. right. now constructor.
        -- apply Forall_app. split; [exact Hrest | now constructor].
      * destruct IH as (front & rest & -> & Hno & Hrest). cbn [stage_spec].
        exists front, (rest ++ [line])%list.
        split; [now rewrite <- app_assoc|]. split.
        -- intros Hin. apply in_app_or in Hin as [Hin|[Hin|[]]];
             [now apply Hno | now apply Hne].
        -- apply Exists_app. now left.
Qed.

Lemma parse_lines_accepts (front rest : list string) :
  ~ In HEADER rest ->
  Exists brace_line rest ->
  exists parts, parse_lines (front ++ HEADER :: rest) = Ok parts.
Proof.
  intros Hno Hex.
  destruct (first_brace_line _ Hex) as (mid & close & after & -> & Hmid & Hclose).
  unfold parse_lines. rewrite fold_left_app. cbn [fold_left].
  rewrite parse_line_header.
  rewrite fold_left_app, (fold_stage2 _ _ _ _ Hmid). cbn [fold_left].
  rewrite parse_line_other by now apply brace_line_not_header.
  cbn [stage p_begin p_block p_end]. unfold brace_line in Hclose. rewrite Hclose.
  rewrite fold_stage3.
  - cbn [stage Nat.eqb negb]. eauto.
  - intros Hin. apply Hno. apply in_or_app. right. now right.
Qed.

(** [parse_source] returns a split exactly for the files in which a line
    after the last header line starts with a closing brace; on every
    other file it raises. *)
Theorem parse_source_accepts_iff (w : world) (content : string) :
  source_file w = Some content ->
  (exists parts, parse_source w = Ok parts)
  <-> exists front rest,
        readlines content = (front ++ HEADER :: rest)%list
        /\ ~ In HEADER rest
        /\ Exists brace_line rest.
Proof.
  intros Hfile. unfold parse_source. rewrite Hfile. split.
  - intros [parts Hparts]. unfold parse_lines in Hparts.
    pose proof (fold_stage_spec (readlines content)) as Hspec.
    fold parse_init in Hparts.
    destruct (stage (fold_left parse_line (readlines content) parse_init))
      as [|[|[|[|n]]]]; cbn [Nat.eqb negb] in Hparts; try discriminate.
    exact Hspec.
  - intros (front & rest & -> & Hno & Hex). now apply parse_lines_accepts.
Qed.

(** ** What the three parts hold *)

Lemma parse_line_after_header (st : parse_state) (line : string) :
  stage st <> 1 ->
  stage (parse_line st line) <> 1
  /\ p_begin (parse_line st line) = p_begin st.
Proof.
  intros Hst. destruct (String.eqb_spec line HEADER) as [->|Hne].
  - rewrite parse_line_header. cbn. split; [discriminate | reflexivity].
  - rewrite parse_line_other by assumption.
    destruct (stage st) as [|[|[|[|n]]]]; try contradiction; cbn;
      try (split; [discriminate | reflexivity]).
    destruct (Py.startswith line "}"); split; (discriminate || reflexivity).
Qed.

Lemma fold_after_header (lines : list string) (st : parse_state) :
  stage st <> 1 ->
  p_begin (fold_left parse_line lines st) = p_begin st.
Proof.
  revert st. induction lines as [|line lines IH]; intros st Hst; cbn [fold_left].
  - reflexivity.
  - destruct (parse_line_after_header st line Hst) as [Hst' Hbegin].
    now rewrite IH, Hbegin.
Qed.

Lemma parse_line_size (st : parse_state) (line : string) :
  block_invariant st ->
  parts_size (parse_line st line) = parts_size st + String.length line.
Proof.
  unfold block_invariant, parts_size. intros Hinv.
  destruct (String.eqb_spec line HEADER) as [->|Hne].
  - rewrite parse_line_header. cbn [p_begin p_block p_end].
    rewrite string_length_app. lia.
  - rewrite parse_line_other by assumption.
    destruct (stage st) as [|[|[|[|n]]]]; try contradiction;
      cbn [p_begin p_block p_end]; rewrite string_length_app; lia.
Qed.

Lemma fold_size (lines : list string) (st : parse_state) :
  block_invariant st ->
  parts_size (fold_left parse_line lines st)
  = parts_size st + String.length (cat lines).
Proof.
  revert st. induction lines as [|line lines IH]; intros st Hinv;
    cbn [fold_left cat].
  - cbn. lia.
  - rewrite IH by now apply parse_line_invariant.
    rewrite parse_line_size by assumption.
    rewrite string_length_app. lia.
Qed.

Lemma Forall_removelast {A : Type} (P : A -> Prop) (l : list A) :
  Forall P l -> Forall P (removelast l).
Proof.
  induction 1 as [|x l Hx Hl IH]; [constructor|].
  destruct l as [|y l]; [constructor|].
  cbn [removelast] in *. constructor; assumption.
Qed.

Lemma readlines_all_but_last (content : string) :
  Forall terminated (removelast (readlines content)).
Proof.
  destruct (readlines content) as [|line lines] eqn:Hlines using rev_ind.
  - constructor.
  - rewrite removelast_last.
    exact (readlines_front_terminated content lines line [] Hlines).
Qed.

Lemma readlines_proper (content line : string) :
  In line (readlines content) -> readlines line = [line].
Proof.
  intros Hin. apply in_split in Hin as (front & back & Hsplit).
  destruct back as [|next back].
  - pose proof (readlines_back content front [line] Hsplit) as H.
    cbn [cat] in H. now rewrite append_nil_r in H.
  - assert (Hterm : Forall terminated (front ++ [line])).
    { apply (readlines_front_terminated content _ next back).
      rewrite Hsplit, <- app_assoc. reflexivity. }
    apply Forall_app in Hterm as [_ Hline]. inversion Hline as [|? ? Ht _]; subst.
    pose proof (readlines_terminated line EmptyString Ht) as H.
    now rewrite append_nil_r in H.
Qed.

Lemma fold_block_lines (lines : list string) :
  Forall terminated (removelast lines) ->
  exists block_lines,
    p_block (fold_left parse_line lines parse_init) = cat block_lines
    /\ incl block_lines lines
    /\ Forall terminated (removelast block_lines)
    /\ block_shape (stage (fold_left parse_line lines parse_init)) block_lines.
Proof.
  induction lines as [|line lines IH] using rev_ind; intros Hterm.
  - exists []. cbn. repeat split; [intros x [] | constructor].
  - rewrite removelast_last in Hterm.
    destruct (IH (Forall_removelast _ _ Hterm)) as (bl & Hcat & Hincl & _ & Hshape).
    assert (Hbl : Forall terminated bl).
    { apply Forall_forall. intros x Hx.
      exact (proj1 (Forall_forall _ _) Hterm x (Hincl x Hx)). }
    assert (Hkeep : incl bl (lines ++ [line])).
    { intros x Hx. apply in_or_app. left. now apply Hincl. }
    assert (Hadd : incl (bl ++ [line]) (lines ++ [line])).
    { intros x Hx. apply in_app_or in Hx as [Hx|Hx]; apply in_or_app;
        [left; now apply Hincl | now right]. }
    rewrite fold_left_app. cbn [fold_left].
    set (st := fold_left parse_line lines parse_init) in *.
    destruct (String.eqb_spec line HEADER) as [->|Hne].
    + rewrite parse_line_header. cbn [stage p_block].
      exists (bl ++ [HEADER])%list.
      split; [rewrite Hcat, cat_app; cbn [cat]; now rewrite append_nil_r|].
      split; [exact Hadd|]. split; [now rewrite removelast_last|].
      cbn [block_shape].
      destruct (stage st) as [|[|[|[|n]]]]; cbn [block_shape] in Hshape;
        try contradiction.
      * subst bl. now exists [].
      * destruct Hshape as [mid ->]. now exists (mid ++ [HEADER])%list.
      * destruct Hshape as (mid & close & -> & _).
        exists ((mid ++ [close]) ++ [HEADER])%list. reflexivity.
    + rewrite parse_line_other by assumption.
      destruct (stage st) as [|[|[|[|n]]]]; cbn [block_shape] in Hshape;
        try contradiction; cbn [stage p_block].
      * exists bl. repeat split; try assumption.
        now apply Forall_removelast.
      * destruct Hshape as [mid ->].
        exists ((HEADER :: mid) ++ [line])%list.
        split; [rewrite Hcat, cat_app; cbn [cat]; now rewrite append_nil_r|].
        split; [exact Hadd|]. split; [now rewrite removelast_last|].
        destruct (Py.startswith line "}") eqn:Hline; cbn [block_shape].
        -- now exists mid, line.
        -- now exists (mid ++ [line])%list.
      * exists bl. repeat split; try assumption.
        now apply Forall_removelast.
Qed.

(** Whenever [parse_source] returns, also on a file in which the header
    line comes back: the first part is the text in front of the first
    header line; the lines of the block are lines of the file, the first
    of them the header line and the last one a line that starts with a
    closing brace; and the three parts together hold as many characters
    as the file, so that no text is lost and none is made up. *)
Theorem parse_source_parts (w : world) (content begin block end_ : string) :
  source_file w = Some content ->
  parse_source w = Ok (begin, block, end_) ->
  (exists before rest,
      readlines content = (before ++ HEADER :: rest)%list
      /\ ~ In HEADER before
      /\ begin = cat before)
  /\ (exists mid close,
         readlines block = (HEADER :: mid ++ [close])%list
         /\ brace_line close
         /\ incl (HEADER :: mid ++ [close]) (readlines content))
  /\ String.length begin + String.length block + String.length end_
     = String.length content.
Proof.
  intros Hfile Hparse. unfold parse_source in Hparse. rewrite Hfile in Hparse.
  split; [|split].
  - assert (Hin : In HEADER (readlines content)).
    { pose proof (fold_stage_spec (readlines content)) as Hspec.
      unfold parse_lines in Hparse. fold parse_init in Hparse.
      destruct (stage (fold_left parse_line (readlines content) parse_init))
        as [|[|[|[|n]]]]; cbn [Nat.eqb negb] in Hparse; try discriminate.
      destruct Hspec as (front & rest & -> & _).
      apply in_or_app. right. now left. }
    destruct (first_occurrence _ _ Hin) as (before & rest & Hsplit & Hno).
    exists before, rest. split; [exact Hsplit|]. split; [exact Hno|].
    unfold parse_lines in Hparse. rewrite Hsplit in Hparse.
    rewrite fold_left_app, (fold_stage1 _ _ _ _ Hno) in Hparse.
    cbn [fold_left] in Hparse. rewrite parse_line_header in Hparse.
    cbn [p_begin p_block p_end] in Hparse.
    match type of Hparse with
    | context [fold_left parse_line rest ?st] =>
        pose proof (fold_after_header rest st) as Hkeep;
        destruct (fold_left parse_line rest st) as [n b k e]
    end.
    cbn [stage p_begin p_block p_end] in *.
    destruct (negb (n =? 3)%nat); [discriminate|].
    injection Hparse as <- _ _. apply Hkeep. discriminate.
  - destruct (fold_block_lines _ (readlines_all_but_last content))
      as (bl & Hcat & Hincl & Hterm & Hshape).
    unfold parse_lines in Hparse. fold parse_init in Hparse.
    destruct (fold_left parse_line (readlines content) parse_init) as [n b k e].
    cbn [stage p_begin p_block p_end] in *.
    destruct n as [|[|[|[|n]]]]; cbn [Nat.eqb negb] in Hparse; try discriminate.
    injection Hparse as _ <- _. cbn [block_shape] in Hshape.
    destruct Hshape as (mid & close & -> & Hclose).
    exists mid, close. split; [|split; [exact Hclose | exact Hincl]].
    rewrite Hcat.
    change (HEADER :: mid ++ [close])%list
      with ((HEADER :: mid) ++ [close])%list in *.
    rewrite removelast_last in Hterm.
    rewrite cat_app. cbn [cat]. rewrite append_nil_r.
    rewrite (readlines_cat _ _ Hterm). f_equal.
    apply (readlines_proper content). apply Hincl.
    apply in_or_app. right. now left.
  - unfold parse_lines in Hparse.
    pose proof (fold_size (readlines content) parse_init eq_refl) as Hsize.
    fold parse_init in Hparse.
    destruct (fold_left parse_line (readlines content) parse_init) as [n b k e].
    cbn [stage p_begin p_block p_end] in *.
    destruct (negb (n =? 3)%nat); [discriminate|].
    injection Hparse as <- <- <-.
    unfold parts_size in Hsize. cbn [p_begin p_block p_end] in Hsize.
    rewrite cat_readlines in Hsize. cbn in Hsize. lia.
Qed.

(** ** Reading back what was generated *)

Lemma unlines_cat (lines : list string) :
  unlines lines = cat (map (fun line => line ++ Py.chr Py.nl) lines).
Proof.
  induction lines as [|line lines IH]; cbn [unlines map cat]; [reflexivity|].
  now rewrite IH, append_assoc.
Qed.

Lemma unlines_app (ls1 ls2 : list string) :
  unlines (ls1 ++ ls2) = unlines ls1 ++ unlines ls2.
Proof.
  induction ls1 as [|l ls1 IH]; cbn [unlines app append]; [reflexivity|].
  now rewrite IH, !append_assoc.
Qed.

Lemma inner_lines_terminated (lines : list string) :
  Forall inner_line lines ->
  Forall terminated (map (fun line => line ++ Py.chr Py.nl) lines)
  /\ Forall (fun line => Py.startswith line "}" = false)
            (map (fun line => line ++ Py.chr Py.nl) lines).
Proof.
  induction 1 as [|line lines [Hnl Hbrace] _ [IH1 IH2]]; cbn [map].
  - split; constructor.
  - split; constructor; try assumption. now exists line.
Qed.

Lemma str_of_nat_avoids (c : ascii) (n : nat) :
  c = Py.nl \/ c = Py.cr -> contains c (Py.str_of_nat n) = false.
Proof.
  unfold Py.str_of_nat. generalize (Nat.to_uint n). intros d Hc.
  induction d; destruct Hc as [->| ->]; cbn; assumption || reflexivity.
Qed.

Lemma byteshex_avoids (c : ascii) (bs : list byte) :
  c = Py.nl \/ c = Py.cr -> contains c (byteshex bs) = false.
Proof.
  intros Hc.
  assert (Hbyte : forall b, contains c (Py.format_02x (Byte.to_N b)) = false).
  { intros b. destruct (format_02x_byte b) as (h & l & Hh & Hl & ->).
    destruct Hc as [->| ->];
      destruct b; vm_compute in Hh, Hl; injection Hh as <-; injection Hl as <-;
      reflexivity. }
  assert (Hlit : contains c "0x" = false /\ contains c "," = false
                 /\ contains c " " = false).
  { destruct Hc as [->| ->]; repeat split. }
  destruct Hlit as (H0x & Hcomma & Hspace).
  induction bs as [|b bs IH]; [reflexivity|].
  destruct bs as [|b' bs].
  - unfold byteshex. cbn [map Py.join].
    now rewrite !contains_app, Hbyte, H0x, Hcomma.
  - rewrite byteshex_cons2, !contains_app, Hbyte, IH, H0x, Hcomma, Hspace.
    reflexivity.
Qed.

Lemma escape_c_avoids (c : ascii) (s : string) :
  c = Py.nl \/ c = Py.cr ->
  contains c s = false -> contains c (escape_c s) = false.
Proof.
  intros Hc. rewrite escape_c_expand. induction s as [|d s IH]; [reflexivity|].
  cbn [contains expand]. intros H. apply orb_false_iff in H as [Hd Hs].
  rewrite contains_app, (IH Hs), orb_false_r. unfold escape_char.
  destruct (Ascii.eqb d Py.backslash);
    [destruct Hc as [->| ->]; reflexivity|].
  destruct (Ascii.eqb d Py.dquote);
    [destruct Hc as [->| ->]; reflexivity|].
  cbn. now rewrite Hd.
Qed.

Lemma entry_lines_avoid (c : ascii) (key_id : list byte) (desc : string) :
  c = Py.nl \/ c = Py.cr ->
  contains c desc = false ->
  Forall (fun line => contains c line = false) (entry_lines key_id desc).
Proof.
  intros Hc Hdesc. unfold entry_lines.
  assert (Hlit : forall lit,
             In lit ["    { (const guint8[]){"; "          "; "      },";
                     "      32, "; Py.chr Py.dquote; " },"] ->
             contains c lit = false).
  { intros lit Hin. cbn [In] in Hin.
    repeat (destruct Hin as [<-|Hin]; [destruct Hc as [->| ->]; reflexivity|]).
    contradiction. }
  repeat (apply Forall_cons; [|]); try apply Forall_nil;
    rewrite ?contains_app, ?(byteshex_avoids _ _ Hc),
      ?(escape_c_avoids _ _ Hc Hdesc);
    rewrite ?Hlit by (cbn [In]; tauto); reflexivity.
Qed.

Lemma entry_lines_inner (key_id : list byte) (desc : string) :
  contains Py.nl desc = false -> Forall inner_line (entry_lines key_id desc).
Proof.
  intros Hdesc.
  pose proof (entry_lines_avoid Py.nl key_id desc (or_introl eq_refl) Hdesc)
    as Hnl.
  unfold entry_lines in *.
  repeat match goal with
         | H : Forall _ (_ :: _) |- _ =>
             let Hx := fresh "Hx" in
             let Hrest := fresh "Hrest" in
             inversion H as [|? ? Hx Hrest]; subst; clear H
         end.
  repeat (apply Forall_cons; [split; [assumption | reflexivity]|]).
  apply Forall_nil.
Qed.

Lemma unlines_avoids (c : ascii) (lines : list string) :
  c = Py.cr ->
  Forall (fun line => contains c line = false) lines ->
  contains c (unlines lines) = false.
Proof.
  intros ->. induction 1 as [|line lines Hline _ IH]; [reflexivity|].
  cbn [unlines]. now rewrite !contains_app, Hline, IH.
Qed.

Lemma rendered_lines (logs : list json) (texts : list string) :
  Forall plain_log logs ->
  Forall2 (fun entry text => render_entry entry = Ok text) logs texts ->
  exists lines,
    cat texts = unlines lines
    /\ Forall inner_line lines
    /\ Forall (fun line => contains Py.cr line = false) lines.
Proof.
  intros Hplain Htexts. induction Htexts as [|entry text logs texts Ht _ IH].
  - exists []. repeat split; constructor.
  - inversion Hplain
      as [|? ? (desc & key & der & Hlog & Hnl & Hcr) Hrest]; subst.
    destruct (IH Hrest) as (lines & Hcat & Hlines & Hlines').
    rewrite (render_entry_log _ _ _ _ Hlog) in Ht. injection Ht as <-.
    rewrite (entry_text_32 _ _ (sha256_length der)).
    exists (entry_lines (SHA256.sha256 der) desc ++ lines)%list.
    split; [|split].
    + cbn [cat]. now rewrite Hcat, unlines_app.
    + apply Forall_app. split; [now apply entry_lines_inner | exact Hlines].
    + apply Forall_app. split; [|exact Hlines'].
      apply entry_lines_avoid; [now right | exact Hcr].
Qed.

Lemma block_text_one_block (lastmod : string) (count : nat)
    (logs : list json) (texts : list string) :
  contains Py.nl lastmod = false ->
  contains Py.cr lastmod = false ->
  Forall plain_log logs ->
  Forall2 (fun entry text => render_entry entry = Ok text) logs texts ->
  one_block (block_text lastmod count texts)
  /\ contains Py.cr (block_text lastmod count texts) = false.
Proof.
  intros Hmod Hmod' Hplain Htexts.
  destruct (rendered_lines _ _ Hplain Htexts)
    as (lines & Hcat & Hlines & Hlines').
  set (inner := ([ (" * Last-Modified " ++ lastmod ++ ", "
                      ++ Py.str_of_nat count ++ " entries. */")%string;
                   "static const bytes_string ct_logids[] = {" ]
                 ++ lines ++ ["    { NULL, 0, NULL }"])%list).
  assert (Hinner : Forall inner_line inner).
  { unfold inner. apply Forall_app. split; [|apply Forall_app; split].
    - repeat (apply Forall_cons; [split|]); try apply Forall_nil;
        rewrite ?contains_app, ?Hmod,
          ?(str_of_nat_avoids Py.nl count (or_introl eq_refl)); reflexivity.
    - exact Hlines.
    - apply Forall_cons; [split; reflexivity | apply Forall_nil]. }
  assert (Hinner' : Forall (fun line => contains Py.cr line = false) inner).
  { unfold inner. apply Forall_app. split; [|apply Forall_app; split].
    - repeat (apply Forall_cons; [|]); try apply Forall_nil;
        rewrite ?contains_app, ?Hmod',
          ?(str_of_nat_avoids Py.cr count (or_intror eq_refl)); reflexivity.
    - exact Hlines'.
    - apply Forall_cons; [reflexivity | apply Forall_nil]. }
  assert (Htext : block_text lastmod count texts
                  = HEADER ++ unlines inner ++ "};" ++ Py.chr Py.nl).
  { unfold inner. rewrite !unlines_app. unfold block_text. rewrite Hcat.
    cbn [unlines]. string_assoc. }
  split.
  - destruct (inner_lines_terminated _ Hinner) as [Hterm Hbrace].
    exists (map (fun line => line ++ Py.chr Py.nl) inner).
    split; [|split; assumption].
    now rewrite <- unlines_cat.
  - rewrite Htext, !contains_app, (unlines_avoids _ _ eq_refl Hinner').
    reflexivity.
Qed.

Lemma universal_newlines_id (s : string) :
  contains Py.cr s = false -> universal_newlines s = s.
Proof.
  induction s as [|c s IH]; [reflexivity|].
  cbn [contains universal_newlines]. intros H.
  apply orb_false_iff in H as [Hc Hs]. now rewrite Hc, IH.
Qed.

Lemma header_terminated : terminated HEADER.
Proof. exists "/* Generated by tools/make-tls-ct-logids.py". split; reflexivity. Qed.

Lemma parse_lines_around_block (before after : list string) (code : string) :
  one_block code ->
  Forall terminated before ->
  ~ In HEADER before ->
  readlines (cat after) = after ->
  ~ In HEADER after ->
  parse_lines (readlines (cat before ++ code ++ cat after))
  = Ok (cat before, code, cat after).
Proof.
  intros (mid & -> & Hterm & Hbrace) Hbefore Hno Hafter Hno'.
  assert (Hlines : readlines (cat before
                              ++ (HEADER ++ cat mid ++ "};" ++ Py.chr Py.nl)
                              ++ cat after)
                   = (before ++ HEADER :: mid
                      ++ ("};" ++ Py.chr Py.nl)%string :: after)%list).
  { rewrite (readlines_cat _ _ Hbefore). f_equal.
    rewrite !append_assoc, (readlines_terminated _ _ header_terminated). f_equal.
    rewrite (readlines_cat _ _ Hterm). f_equal.
    rewrite <- append_assoc.
    rewrite (readlines_terminated ("};" ++ Py.chr Py.nl)), Hafter; [reflexivity|].
    now exists "};". }
  rewrite Hlines. now apply parse_lines_one_block.
Qed.

Lemma plain_log_valid (entry : json) : plain_log entry -> valid_log entry.
Proof. intros (desc & key & der & Hlog & _). now exists desc, key, der. Qed.

Lemma generated_one_block
    (members : list (string * json)) (ops : list json)
    (logss : list (list json)) (lastmod : string) :
  lookup "operators" members = Some (JArr ops) ->
  Forall2 has_logs ops logss ->
  Forall plain_log (List.concat logss) ->
  contains Py.nl lastmod = false ->
  contains Py.cr lastmod = false ->
  exists code,
    process_json (JObj members) lastmod = Ok code
    /\ one_block code
    /\ contains Py.cr code = false.
Proof.
  intros Hops Hlogs Hplain Hmod Hmod'.
  rewrite process_json_unfold, (flat_logs_shape _ _ _ Hops Hlogs). cbn [bind].
  destruct (mapM_total render_entry (List.concat logss)) as [texts Htexts].
  { eapply Forall_impl; [|exact Hplain].
    intros e He. apply valid_log_renders. now apply plain_log_valid. }
  rewrite Htexts. cbn [bind]. eexists. split; [reflexivity|].
  apply mapM_Ok_iff in Htexts.
  now apply (block_text_one_block _ _ (List.concat logss)).
Qed.

(** Generating and reading back: when the descriptions and the
    [Last-Modified] text have no newline and no carriage return,
    [process_json] returns a block that a reader of a file it was written
    to is handed as it is, and in a file whose text is that block between
    text that holds no header line, [parse_source] finds that block,
    with the text in front and behind as the other two parts. *)
Theorem parse_source_generated
    (members : list (string * json)) (ops : list json)
    (logss : list (list json)) (lastmod : string) :
  lookup "operators" members = Some (JArr ops) ->
  Forall2 has_logs ops logss ->
  Forall plain_log (List.concat logss) ->
  contains Py.nl lastmod = false ->
  contains Py.cr lastmod = false ->
  exists code,
    process_json (JObj members) lastmod = Ok code
    /\ universal_newlines code = code
    /\ forall (prefix suffix : string) (done : list effect),
         Forall terminated (readlines prefix) ->
         ~ In HEADER (readlines prefix) ->
         ~ In HEADER (readlines suffix) ->
         parse_source (World (Some (prefix ++ code ++ suffix)) done)
         = Ok (prefix, code, suffix).
Proof.
  intros Hops Hlogs Hplain Hmod Hmod'.
  destruct (generated_one_block _ _ _ _ Hops Hlogs Hplain Hmod Hmod')
    as (code & Hcode & Hblock & Hcr).
  exists code. split; [exact Hcode|].
  split; [now apply universal_newlines_id|].
  intros prefix suffix done Hterm Hno Hno'.
  unfold parse_source. cbn [source_file].
  rewrite <- (cat_readlines prefix) at 1 2.
  rewrite <- (cat_readlines suffix) at 1 2.
  apply parse_lines_around_block; try assumption.
  now rewrite cat_readlines.
Qed.

(** ** Runs in which opening, writing or printing may fail *)

Lemma attempt_ok (io : io_faults) (op : effect) (w w' : world) :
  attempt io op w = (w', Ok tt) -> w' = perform op w.
Proof.
  unfold attempt. destruct (io (effects w) op); [discriminate|].
  now intros [= <-].
Qed.

Lemma and_then_ok (m : world * result unit)
    (k : world -> world * result unit) (w' : world) :
  and_then m k = (w', Ok tt) ->
  exists w0, m = (w0, Ok tt) /\ k w0 = (w', Ok tt).
Proof.
  destruct m as [w0 [[]|e]]; cbn [and_then]; [|discriminate].
  intros H. now exists w0.
Qed.

Lemma main_io_fetch (io : io_faults) (update : bool) (r : response)
    (obj : json) (lastmod code : string) (w : world) :
  r_json r = Ok obj ->
  header_lookup "Last-Modified" (r_headers r) = Ok lastmod ->
  process_json obj lastmod = Ok code ->
  main_io io update (Ok r) w
  = if update then
      match parse_source w with
      | Raise e => (w, Raise e)
      | Ok (begin, block, end_) =>
          if String.eqb block code then
            attempt io (PrintLine "File is up-to-date") w
          else
            and_then (attempt io OpenForWriting w) (fun w =>
            and_then (attempt io (WriteText begin) w) (fun w =>
            and_then (attempt io (WriteText code) w) (fun w =>
            and_then (attempt io (WriteText end_) w) (fun w =>
            attempt io (PrintLine ("Updated " ++ SOURCE_FILE)) w))))
      end
    else attempt io (PrintLine code) w.
Proof.
  intros Hjson Hmod Hcode. unfold main_io. cbn [bind].
  rewrite Hjson. cbn [bind]. rewrite Hmod. cbn [bind]. now rewrite Hcode.
Qed.

(** Updating twice: on a file with one block and no header line
    elsewhere, and data whose descriptions and [Last-Modified] text have
    no newline and no carriage return, a run with the update flag
    succeeds when nothing fails; and after any run with the update flag
    that ended without an exception, a second run with the same data on
    the file it left does not open the file: all it tries is to print
    that the file is up to date. *)
Theorem main_update_twice
    (r : response) (members : list (string * json)) (ops : list json)
    (logss : list (list json)) (lastmod : string)
    (w : world) (content : string)
    (before mid : list string) (close : string) (after : list string) :
  r_json r = Ok (JObj members) ->
  header_lookup "Last-Modified" (r_headers r) = Ok lastmod ->
  lookup "operators" members = Some (JArr ops) ->
  Forall2 has_logs ops logss ->
  Forall plain_log (List.concat logss) ->
  contains Py.nl lastmod = false ->
  contains Py.cr lastmod = false ->
  source_file w = Some content ->
  contains Py.cr content = false ->
  readlines content = (before ++ HEADER :: mid ++ close :: after)%list ->
  ~ In HEADER before ->
  Forall (fun line => Py.startswith line "}" = false) mid ->
  brace_line close ->
  ~ In HEADER after ->
  (exists w1, main true (Ok r) w = (w1, Ok tt))
  /\ (forall (io io' : io_faults) (w1 : world),
         main_io io true (Ok r) w = (w1, Ok tt) ->
         main_io io' true (Ok r) w1
         = attempt io' (PrintLine "File is up-to-date") w1).
Proof.
  intros Hjson Hhdr Hops Hlogs Hplain Hmod Hmod' Hfile Hcr Hlines
         Hbefore Hmid Hclose Hafter.
  destruct (generated_one_block _ _ _ _ Hops Hlogs Hplain Hmod Hmod')
    as (code & Hcode & Hblock & Hcode_cr).
  destruct (parse_source_one_block w content before mid close after
              Hfile Hlines Hbefore Hmid Hclose Hafter) as [Hparse Hcontent].
  assert (Hparts_cr : contains Py.cr (cat before) = false
                      /\ contains Py.cr (cat after) = false).
  { rewrite <- Hcontent, !contains_app in Hcr.
    apply orb_false_iff in Hcr as [Hb Hrest].
    apply orb_false_iff in Hrest as [_ Ha]. now split. }
  destruct Hparts_cr as [Hbefore_cr Hafter_cr].
  assert (Hnew : parse_lines
                   (readlines (universal_newlines
                                 (cat [cat before; code; cat after])))
                 = Ok (cat before, code, cat after)).
  { cbn [cat]. rewrite append_nil_r.
    rewrite universal_newlines_id
      by now rewrite !contains_app, Hbefore_cr, Hcode_cr, Hafter_cr.
    apply parse_lines_around_block; try assumption.
    - exact (readlines_front_terminated _ _ _ _ Hlines).
    - apply (readlines_back content (before ++ HEADER :: mid ++ [close])).
      rewrite Hlines. rewrite <- !app_assoc. cbn [app].
      now rewrite <- app_assoc. }
  assert (Hsecond : forall (io io' : io_faults) (w1 : world),
             main_io io true (Ok r) w = (w1, Ok tt) ->
             main_io io' true (Ok r) w1
             = attempt io' (PrintLine "File is up-to-date") w1).
  { intros io io' w1 Hrun.
    rewrite (main_io_fetch _ _ _ _ _ _ _ Hjson Hhdr Hcode), Hparse in Hrun.
    rewrite (main_io_fetch _ _ _ _ _ _ _ Hjson Hhdr Hcode).
    destruct (String.eqb_spec (HEADER ++ cat mid ++ close) code) as [Hsame|Hdiff].
    - apply attempt_ok in Hrun. subst w1. cbn [perform].
      unfold parse_source, print. cbn [source_file].
      unfold parse_source in Hparse. rewrite Hparse, Hsame.
      now rewrite String.eqb_refl.
    - apply and_then_ok in Hrun as (w2 & H2 & Hrun). apply attempt_ok in H2.
      apply and_then_ok in Hrun as (w3 & H3 & Hrun). apply attempt_ok in H3.
      apply and_then_ok in Hrun as (w4 & H4 & Hrun). apply attempt_ok in H4.
      apply and_then_ok in Hrun as (w5 & H5 & Hrun). apply attempt_ok in H5.
      apply attempt_ok in Hrun. subst. cbn [perform].
      change (write (cat after) (write code (write (cat before) (open_w w))))
        with (fold_left (fun w s => write s w)
                [cat before; code; cat after] (open_w w)).
      rewrite writes_done. unfold parse_source, print. cbn [source_file].
      rewrite Hnew. now rewrite String.eqb_refl. }
  split; [|exact Hsecond].
  unfold main. rewrite (main_io_fetch _ _ _ _ _ _ _ Hjson Hhdr Hcode), Hparse.
  destruct (String.eqb (HEADER ++ cat mid ++ close) code);
    unfold attempt, no_faults; cbn [and_then]; eauto.
Qed.

Lemma substring_prefix (k : nat) (s : string) :
  exists rest, s = substring 0 k s ++ rest.
Proof.
  revert s. induction k as [|k IH]; intros s.
  - exists s. destruct s; reflexivity.
  - destruct s as [|c s]; [now exists EmptyString|].
    destruct (IH s) as [rest Hrest]. exists rest. cbn. now rewrite <- Hrest.
Qed.

Lemma fail_write (w : world) (texts : list string) (s : string) (f : fault) :
  exists text rest,
    source_file
      (fail (WriteText s) f (fold_left (fun w s => write s w) texts (open_w w)))
    = Some (universal_newlines text)
    /\ cat texts ++ s = text ++ rest.
Proof.
  rewrite writes_done. cbn [fail effects source_file].
  rewrite written_since_open.
  destruct (substring_prefix (kept f) (cat texts ++ s)) as [rest Hrest].
  now exists (substring 0 (kept f) (cat texts ++ s)), rest.
Qed.

(** What a run does to the file, whatever fails: the text of the file is
    as it was, or the update flag was given, [process_json] returned the
    block, [parse_source] returned a split with another block, and the
    file was opened for writing; it then holds, as a reader is handed it,
    a leading part of the first part, the generated block and the last
    part put end to end, and all of it when the run ended without an
    exception. *)
Theorem main_file_frame (io : io_faults) (update : bool)
    (get : result response) (w w' : world) (res : result unit) :
  main_io io update get w = (w', res) ->
  source_file w' = source_file w
  \/ (update = true
      /\ exists (r : response) (obj : json) (lastmod code : string)
                (begin block end_ text rest : string),
           get = Ok r
           /\ r_json r = Ok obj
           /\ header_lookup "Last-Modified" (r_headers r) = Ok lastmod
           /\ process_json obj lastmod = Ok code
           /\ parse_source w = Ok (begin, block, end_)
           /\ block <> code
           /\ begin ++ code ++ end_ = text ++ rest
           /\ source_file w' = Some (universal_newlines text)
           /\ (res = Ok tt -> rest = EmptyString)).
Proof.
  intros Hrun.
  destruct get as [r|e]; [|left; now injection Hrun as <- _].
  destruct (r_json r) as [obj|e] eqn:Hjson;
    [|left; unfold main_io in Hrun; cbn [bind] in Hrun; rewrite Hjson in Hrun;
      now injection Hrun as <- _].
  destruct (header_lookup "Last-Modified" (r_headers r)) as [lastmod|e] eqn:Hhdr;
    [|left; unfold main_io in Hrun; cbn [bind] in Hrun;
      rewrite Hjson in Hrun; cbn [bind] in Hrun; rewrite Hhdr in Hrun;
      now injection Hrun as <- _].
  destruct (process_json obj lastmod) as [code|e] eqn:Hcode;
    [|left; unfold main_io in Hrun; cbn [bind] in Hrun;
      rewrite Hjson in Hrun; cbn [bind] in Hrun; rewrite Hhdr in Hrun;
      cbn [bind] in Hrun; rewrite Hcode in Hrun; now injection Hrun as <- _].
  rewrite (main_io_fetch _ _ _ _ _ _ _ Hjson Hhdr Hcode) in Hrun.
  assert (Hattempt : forall op w0 w1 res1,
             attempt io op w0 = (w1, res1) ->
             (exists f, res1 = Raise (raised f) /\ w1 = fail op f w0)
             \/ (res1 = Ok tt /\ w1 = perform op w0)).
  { intros op w0 w1 res1. unfold attempt.
    destruct (io (effects w0) op) as [f|]; intros [= <- <-]; eauto. }
  destruct update.
  2:{ left. apply Hattempt in Hrun as [(f & _ & ->)|[_ ->]]; reflexivity. }
  destruct (parse_source w) as [[[begin block] end_]|e] eqn:Hparse;
    [|left; now injection Hrun as <- _].
  destruct (String.eqb_spec block code) as [Hsame|Hdiff].
  { left. apply Hattempt in Hrun as [(f & _ & ->)|[_ ->]]; reflexivity. }
  destruct (attempt io OpenForWriting w) as [w1 res1] eqn:H1.
  apply Hattempt in H1 as [(f & -> & ->)|[-> ->]]; cbn [and_then] in Hrun.
  { left. now injection Hrun as <- _. }
  right. split; [reflexivity|].
  exists r, obj, lastmod, code, begin, block, end_.
  cbn [perform] in Hrun.
  destruct (attempt io (WriteText begin) (open_w w)) as [w2 res2] eqn:H2.
  apply Hattempt in H2 as [(f & -> & ->)|[-> ->]]; cbn [and_then] in Hrun.
  { injection Hrun as <- <-.
    destruct (fail_write w [] begin f) as (text & rest & Hfile & Hsplit).
    cbn [cat append] in Hsplit.
    exists text, (rest ++ code ++ end_).
    do 6 (split; [reflexivity || assumption|]).
    split; [rewrite Hsplit at 1; apply append_assoc|].
    split; [exact Hfile | discriminate]. }
  cbn [perform] in Hrun.
  destruct (attempt io (WriteText code) (write begin (open_w w)))
    as [w3 res3] eqn:H3.
  apply Hattempt in H3 as [(f & -> & ->)|[-> ->]]; cbn [and_then] in Hrun.
  { injection Hrun as <- <-.
    destruct (fail_write w [begin] code f) as (text & rest & Hfile & Hsplit).
    cbn [cat] in Hsplit. rewrite append_nil_r in Hsplit.
    exists text, (rest ++ end_).
    do 6 (split; [reflexivity || assumption|]).
    split; [rewrite <- (append_assoc begin code end_), Hsplit;
            apply append_assoc|].
    split; [exact Hfile | discriminate]. }
  cbn [perform] in Hrun.
  destruct (attempt io (WriteText end_) (write code (write begin (open_w w))))
    as [w4 res4] eqn:H4.
  apply Hattempt in H4 as [(f & -> & ->)|[-> ->]]; cbn [and_then] in Hrun.
  { injection Hrun as <- <-.
    destruct (fail_write w [begin; code] end_ f)
      as (text & rest & Hfile & Hsplit).
    cbn [cat] in Hsplit. rewrite append_nil_r, append_assoc in Hsplit.
    exists text, rest.
    do 6 (split; [reflexivity || assumption|]).
    split; [exact Hsplit|]. split; [exact Hfile | discriminate]. }
  cbn [perform] in Hrun.
  exists (begin ++ code ++ end_), EmptyString.
  do 6 (split; [reflexivity || assumption|]).
  split; [now rewrite append_nil_r|].
  split; [|reflexivity].
  pose proof (writes_done w [begin; code; end_]) as Hdone.
  cbn [fold_left cat] in Hdone. rewrite append_nil_r in Hdone.
  apply Hattempt in Hrun as [(f & _ & ->)|[_ ->]];
    cbn [fail perform print source_file]; now rewrite Hdone.
Qed.

(** ** The further statements at concrete inputs *)

Lemma test_log_plain : plain_log test_log.
Proof.
  exists "Test Log", EmptyString, [].
  split; [exact test_log_entry | split; reflexivity].
Defined.

Lemma test_log_valid : valid_log test_log.
Proof. exists "Test Log", EmptyString, []. exact test_log_entry. Defined.

Lemma process_json_returns_iff_witness :
  exists block,
    process_json test_json "Thu, 01 Jan 1970 00:00:00 GMT" = Ok block.
Proof.
  apply (proj2 (process_json_returns_iff
                  [("operators", JArr [JObj [("logs", JArr [test_log])]])]
                  [JObj [("logs", JArr [test_log])]] [[test_log]]
                  "Thu, 01 Jan 1970 00:00:00 GMT" eq_refl
                  test_operator_has_logs)).
  constructor; [exact test_log_valid | constructor].
Defined.

Lemma keyless_operator_has_logs :
  Forall2 has_logs
    [JObj [("logs", JArr [test_log; keyless_log; test_log])]]
    [[test_log; keyless_log; test_log]].
Proof.
  constructor; [|constructor].
  exists [("logs", JArr [test_log; keyless_log; test_log])]. split; reflexivity.
Defined.

Lemma process_json_first_error_witness :
  process_json keyless_json "Thu, 01 Jan 1970 00:00:00 GMT"
  = Raise (KeyError "key").
Proof.
  apply (process_json_first_error
           [("operators",
             JArr [JObj [("logs", JArr [test_log; keyless_log; test_log])]])]
           [JObj [("logs", JArr [test_log; keyless_log; test_log])]]
           [[test_log; keyless_log; test_log]]
           "Thu, 01 Jan 1970 00:00:00 GMT"
           [test_log] keyless_log [test_log] (KeyError "key")
           eq_refl keyless_operator_has_logs eq_refl).
  - constructor; [exact test_log_valid | constructor].
  - reflexivity.
Defined.

Lemma process_json_grouping_witness :
  process_json one_operator_json "Thu, 01 Jan 1970 00:00:00 GMT"
  = process_json two_operators_json "Thu, 01 Jan 1970 00:00:00 GMT".
Proof.
  apply (process_json_grouping
           [("operators", JArr [JObj [("logs", JArr [test_log; test_log])]])]
           [("operators",
             JArr [JObj [("logs", JArr [test_log])];
                   JObj [("logs", JArr [test_log])]])]
           [JObj [("logs", JArr [test_log; test_log])]]
           [JObj [("logs", JArr [test_log])]; JObj [("logs", JArr [test_log])]]
           [[test_log; test_log]] [[test_log]; [test_log]]
           "Thu, 01 Jan 1970 00:00:00 GMT" eq_refl).
  - constructor; [|constructor].
    exists [("logs", JArr [test_log; test_log])]. split; reflexivity.
  - reflexivity.
  - constructor; [|constructor; [|constructor]];
      exists [("logs", JArr [test_log])]; split; reflexivity.
  - reflexivity.
Defined.

Lemma process_json_missing_member_witness :
  process_json (JObj [("version", JStr "3")]) "Thu, 01 Jan 1970 00:00:00 GMT"
  = Raise (KeyError "operators")
  /\ process_json
       (JObj [("operators",
               JArr [JObj [("logs", JArr [keyless_log])];
                     JObj [("name", JStr "Operator")]])])
       "Thu, 01 Jan 1970 00:00:00 GMT"
     = Raise (KeyError "logs").
Proof.
  split.
  - apply (proj1 (process_json_missing_member
                    [("version", JStr "3")] "Thu, 01 Jan 1970 00:00:00 GMT")).
    reflexivity.
  - apply (proj2 (process_json_missing_member
                    [("operators",
                      JArr [JObj [("logs", JArr [keyless_log])];
                            JObj [("name", JStr "Operator")]])]
                    "Thu, 01 Jan 1970 00:00:00 GMT")
             [JObj [("logs", JArr [keyless_log])]]
             [("name", JStr "Operator")] []).
    + reflexivity.
    + constructor; [|constructor].
      exists [("logs", JArr [keyless_log])], (JArr [keyless_log]).
      split; reflexivity.
    + reflexivity.
Defined.

Lemma parse_source_accepts_iff_witness :
  exists parts, parse_source (World (Some two_headers) []) = Ok parts.
Proof.
  apply (proj2 (parse_source_accepts_iff (World (Some two_headers) [])
                  two_headers eq_refl)).
  exists [HEADER; unlines ["};"]; unlines ["int x;"]], [unlines ["}"]].
  split; [reflexivity|]. split.
  - intros [H|[]]. discriminate.
  - constructor. reflexivity.
Defined.

Lemma parse_source_parts_witness :
  (exists before rest,
      readlines two_headers = (before ++ HEADER :: rest)%list
      /\ ~ In HEADER before
      /\ EmptyString = cat before)
  /\ (exists mid close,
         readlines (HEADER ++ unlines ["};"] ++ HEADER ++ unlines ["}"])
         = (HEADER :: mid ++ [close])%list
         /\ brace_line close
         /\ incl (HEADER :: mid ++ [close]) (readlines two_headers))
  /\ String.length EmptyString
     + String.length (HEADER ++ unlines ["};"] ++ HEADER ++ unlines ["}"])
     + String.length (unlines ["int x;"])
     = String.length two_headers.
Proof.
  exact (parse_source_parts (World (Some two_headers) []) two_headers
           EmptyString (HEADER ++ unlines ["};"] ++ HEADER ++ unlines ["}"])
           (unlines ["int x;"]) eq_refl eq_refl).
Defined.

Lemma parse_source_generated_witness :
  exists code,
    process_json test_json "Thu, 01 Jan 1970 00:00:00 GMT" = Ok code
    /\ universal_newlines code = code
    /\ parse_source
         (World (Some (unlines ["#include <glib.h>"] ++ code
                       ++ unlines ["int x;"])) [])
       = Ok (unlines ["#include <glib.h>"], code, unlines ["int x;"]).
Proof.
  destruct (parse_source_generated
              [("operators", JArr [JObj [("logs", JArr [test_log])]])]
              [JObj [("logs", JArr [test_log])]] [[test_log]]
              "Thu, 01 Jan 1970 00:00:00 GMT" eq_refl test_operator_has_logs)
    as (code & Hcode & Hread & Hparse).
  - constructor; [exact test_log_plain | constructor].
  - reflexivity.
  - reflexivity.
  - exists code. split; [exact Hcode|]. split; [exact Hread|]. apply Hparse.
    + constructor; [|constructor].
      exists "#include <glib.h>". split; reflexivity.
    + intros [H|[]]. discriminate.
    + intros [H|[]]. discriminate.
Defined.

Lemma main_update_twice_witness :
  (exists w1,
      main true (Ok test_response) (World (Some outdated_file) []) = (w1, Ok tt))
  /\ main_io no_faults true (Ok test_response)
       (fst (main true (Ok test_response) (World (Some outdated_file) [])))
     = attempt no_faults (PrintLine "File is up-to-date")
         (fst (main true (Ok test_response) (World (Some outdated_file) []))).
Proof.
  destruct (main_update_twice test_response
              [("operators", JArr [JObj [("logs", JArr [test_log])]])]
              [JObj [("logs", JArr [test_log])]] [[test_log]]
              "Thu, 01 Jan 1970 00:00:00 GMT"
              (World (Some outdated_file) []) outdated_file
              [unlines ["#include <glib.h>"]] [] (unlines ["};"])
              [unlines ["int x;"]]
              eq_refl eq_refl eq_refl test_operator_has_logs)
    as [Hfirst Hsecond].
  - constructor; [exact test_log_plain | constructor].
  - reflexivity.
  - reflexivity.
  - reflexivity.
  - reflexivity.
  - reflexivity.
  - intros [H|[]]. discriminate.
  - constructor.
  - reflexivity.
  - intros [H|[]]. discriminate.
  - split; [exact Hfirst|].
    apply (Hsecond no_faults no_faults). vm_compute. reflexivity.
Defined.

Lemma main_file_frame_witness :
  source_file
    (fst (main_io block_unencodable true (Ok test_response)
            (World (Some outdated_file) [])))
  = Some outdated_file
  \/ (true = true
      /\ exists (r : response) (obj : json) (lastmod code : string)
                (begin block end_ text rest : string),
           Ok test_response = Ok r
           /\ r_json r = Ok obj
           /\ header_lookup "Last-Modified" (r_headers r) = Ok lastmod
           /\ process_json obj lastmod = Ok code
           /\ parse_source (World (Some outdated_file) [])
              = Ok (begin, block, end_)
           /\ block <> code
           /\ begin ++ code ++ end_ = text ++ rest
           /\ source_file
                (fst (main_io block_unencodable true (Ok test_response)
                        (World (Some outdated_file) [])))
              = Some (universal_newlines text)
           /\ (snd (main_io block_unencodable true (Ok test_response)
                      (World (Some outdated_file) []))
               = Ok tt ->
               rest = EmptyString)).
Proof.
  exact (main_file_frame block_unencodable true (Ok test_response)
           (World (Some outdated_file) [])
           (fst (main_io block_unencodable true (Ok test_response)
                   (World (Some outdated_file) [])))
           (snd (main_io block_unencodable true (Ok test_response)
                   (World (Some outdated_file) [])))
           (surjective_pairing _)).
Defined.

Example main_io_write_fails :
  main_io block_unencodable true (Ok test_response)
    (World (Some outdated_file) [])
  = (World (Some (unlines ["#include <glib.h>"]))
           [OpenForWriting; WriteText (unlines ["#include <glib.h>"])],
     Raise UnicodeEncodeError).
Proof. vm_compute. reflexivity. Qed.
